(** * siobrultech-protocols: GEM packet decoding and the API call protocol

    A shallow embedding of [siobrultech_protocols/gem/packets.py] and
    [siobrultech_protocols/gem/api.py], with the properties of the
    specification stated and proved over it.

    Conventions.
    - Python [bytes] are [list byte]; an element read as an [int] is
      [octet b], a number in [0, 255].
    - Python [int] values are [Z]; sizes, offsets and counts are [nat].
    - Python [float] values are binary64 primitive floats.
    - A raised exception is the left injection of a sum: a function that
      may raise returns [exn + A]. *)

From Stdlib Require Import List String Ascii ZArith NArith Lia Bool Strings.Byte.
From Stdlib Require Import Floats HexString DecimalString.
Import ListNotations.

Local Open Scope string_scope.
Local Open Scope list_scope.
Local Open Scope nat_scope.

(** ** Python built-ins used by the two modules *)

Module py.

(** Exceptions raised by the embedded code. *)
Inductive exn : Type :=
| MalformedPacketException (msg : string)
| KeyError (key : string)
| TypeError (msg : string)
| ValueError (msg : string)
| IndexError
| AssertionError
| AttributeError (attr : string)
| CancelledError
| Exception (msg : string).

Definition result (A : Type) : Type := (exn + A)%type.

(** The integer value of one element of a [bytes] object. *)
Definition octet (b : byte) : Z := Z.of_N (Byte.to_N b).

(** [buffer[start:stop]] for non-negative [start] and [stop]. *)
Definition slice {A} (buffer : list A) (start stop : nat) : list A :=
  firstn (stop - start) (skipn start buffer).

(** [buffer[:stop]], [stop] possibly negative. *)
Definition slice_to {A} (buffer : list A) (stop : Z) : list A :=
  if (stop <? 0)%Z
  then firstn (List.length buffer - Z.to_nat (- stop)) buffer
  else firstn (Z.to_nat stop) buffer.

(** [buffer[i]], [i] possibly negative; [None] stands for IndexError. *)
Definition index {A} (buffer : list A) (i : Z) : option A :=
  if (i <? 0)%Z
  then if (Z.to_nat (- i) <=? List.length buffer)
       then nth_error buffer (List.length buffer - Z.to_nat (- i))
       else None
  else nth_error buffer (Z.to_nat i).

(** An insertion-ordered dictionary with string keys ([dict],
    [OrderedDict]): [d[k] = v] replaces in place or appends. *)
Definition dict (V : Type) : Type := list (string * V).

Fixpoint setitem {V} (k : string) (v : V) (d : dict V) : dict V :=
  match d with
  | [] => [(k, v)]
  | (k', v') :: d' =>
      if String.eqb k' k then (k, v) :: d' else (k', v') :: setitem k v d'
  end.

Fixpoint getitem {V} (k : string) (d : dict V) : option V :=
  match d with
  | [] => None
  | (k', v') :: d' => if String.eqb k' k then Some v' else getitem k d'
  end.

Definition values {V} (d : dict V) : list V := map snd d.

(** [str(n)] for a non-negative integer. *)
Definition str_of_N (n : N) : string := NilZero.string_of_uint (N.to_uint n).
Definition str_of_nat (n : nat) : string := str_of_N (N.of_nat n).

(** [hex(n)]: ["0x"] and lower-case digits, a leading ["-"] when
    negative. *)
Definition hex (n : Z) : string := HexString.of_Z n.

Definition hex_digit (n : N) : ascii :=
  match n with
  | 0 => "0" | 1 => "1" | 2 => "2" | 3 => "3" | 4 => "4" | 5 => "5"
  | 6 => "6" | 7 => "7" | 8 => "8" | 9 => "9" | 10 => "a" | 11 => "b"
  | 12 => "c" | 13 => "d" | 14 => "e" | _ => "f"
  end%N%char.

(** [codecs.encode(packet, "hex")]: two lower-case digits per byte. *)
Fixpoint hexlify (packet : list byte) : string :=
  match packet with
  | [] => EmptyString
  | b :: rest =>
      String (hex_digit (Byte.to_N b / 16))
        (String (hex_digit (Byte.to_N b mod 16)) (hexlify rest))
  end.

(** What [str.format] prints for a [bytes] object holding hexadecimal
    digits: its [repr]. *)
Definition bytes_repr (s : string) : string := ("b'" ++ s ++ "'")%string.

(** [float(n)] for an integer: the nearest binary64 number, ties to
    even. *)
Definition float_of_Z (n : Z) : float :=
  SF2Prim (binary_normalize prec emax n 0 false).

End py.
Import py.

(** ** packets.py *)

Module packets.

(** *** The names imported from fields.py *)

(** Modelled from the spec: the three byte-order functions of [fields.py]
    are missing from the sources. [PacketFormat.__init__] passes them to
    the field constructors as values, so they are the constructors of a
    type here, and [order_fn_call] applies one. *)
Inductive order_fn : Type :=
| hi_to_lo
| lo_to_hi
| lo_to_hi_signed.

(** Modelled from the spec: an unsigned integer assembled from a
    least-significant-byte-first sequence. *)
Fixpoint little_endian (octets : list byte) : Z :=
  match octets with
  | [] => 0
  | b :: rest => octet b + 256 * little_endian rest
  end%Z.

(** Modelled from the spec: the two's-complement reading of a magnitude
    of [bits] bits. *)
Definition twos_complement (bits : Z) (magnitude : Z) : Z :=
  if Z.testbit magnitude (bits - 1) then (magnitude - 2 ^ bits)%Z
  else magnitude.

(** Modelled from the spec: [hi_to_lo] reads most-significant-byte-first,
    [lo_to_hi] least-significant-byte-first, [lo_to_hi_signed] reads the
    assembled magnitude as two's-complement. *)
Definition order_fn_call (fn : order_fn) (octets : list byte) : Z :=
  match fn with
  | hi_to_lo => little_endian (rev octets)
  | lo_to_hi => little_endian octets
  | lo_to_hi_signed =>
      twos_complement (8 * Z.of_nat (List.length octets))
        (little_endian octets)
  end.

(** Modelled from the spec: the [Field] classes of [fields.py] are missing
    from the sources. Each constructor takes the arguments
    [PacketFormat.__init__] passes. *)
Inductive Field : Type :=
| NumericField (size : nat) (fn : order_fn)
| FloatingPointField (size : nat) (fn : order_fn) (divisor : float)
| ByteField
| BytesField (size : nat)
| DateTimeField
| NumericArrayField (num_elems size : nat) (fn : order_fn)
| FloatingPointArrayField (num_elems size : nat) (fn : order_fn)
    (divisor : float).

(** Modelled from the spec: the [elem_field] of an array field. *)
Definition elem_field (f : Field) : option Field :=
  match f with
  | NumericArrayField _ size fn => Some (NumericField size fn)
  | FloatingPointArrayField _ size fn divisor =>
      Some (FloatingPointField size fn divisor)
  | _ => None
  end.

(** Modelled from the spec: [NumericField.max], the largest value the
    field's byte width can express. *)
Definition NumericField_max (f : Field) : option Z :=
  match f with
  | NumericField size _ => Some (2 ^ (8 * Z.of_nat size) - 1)%Z
  | _ => None
  end.

(** *** PacketFormat and the values a packet holds *)

Record PacketFormat : Type := {
  name : string;
  num_channels : nat;
  fields : dict Field
}.

Section Packets.

(** The decoded timestamp type, the width of its encoding and the decoder
    of the encoded bytes: the spec only says that [DateTimeField] is a
    fixed-width encoded timestamp. *)
Variable datetime : Type.
Variable DateTimeField_size : nat.
Variable DateTimeField_decode : list byte -> datetime.

(** The Python objects that [parse] puts in [args] and a [Packet] keeps. *)
#[warnings="-register-all"]
Inductive Value : Type :=
| VInt (n : Z)
| VFloat (x : float)
| VBytes (b : list byte)
| VDateTime (t : datetime)
| VList (l : list Value)
| VPacketFormat (f : PacketFormat).

(** Truth value of an object, as [if time_stamp:] tests it. *)
Definition truthy (v : Value) : bool :=
  match v with
  | VInt n => negb (n =? 0)%Z
  | VFloat x => negb (x =? 0)%float
  | VBytes b => negb (Nat.eqb (List.length b) 0)
  | VDateTime _ => true
  | VList l => negb (Nat.eqb (List.length l) 0)
  | VPacketFormat _ => true
  end.

(** [v != n] for an integer literal [n]. *)
Definition ne_int (v : Value) (n : Z) : bool :=
  match v with
  | VInt m => negb (m =? n)%Z
  | VFloat x => negb (x =? float_of_Z n)%float
  | _ => true
  end.

(** [hex(v)]; only an integer has one. *)
Definition hex_value (v : Value) : result string :=
  match v with
  | VInt m => inr (hex m)
  | _ => inl (TypeError "object cannot be interpreted as an integer")
  end.

(** Modelled from the spec: [Field.size], the number of bytes a field
    occupies. *)
Definition Field_size (f : Field) : nat :=
  match f with
  | NumericField size _ => size
  | FloatingPointField size _ _ => size
  | ByteField => 1
  | BytesField size => size
  | DateTimeField => DateTimeField_size
  | NumericArrayField num_elems size _ => num_elems * size
  | FloatingPointArrayField num_elems size _ _ => num_elems * size
  end.

(** Modelled from the spec: [Field.read(buffer, offset)]. It decodes the
    field's bytes at [offset] and checks no bounds; a scaled field divides
    the assembled integer by its divisor (not zero in any layout), and an
    array field reads its elements one after the other. *)
Definition Field_read (f : Field) (buffer : list byte) (offset : nat) : Value :=
  match f with
  | NumericField size fn =>
      VInt (order_fn_call fn (slice buffer offset (offset + size)))
  | FloatingPointField size fn divisor =>
      VFloat
        (float_of_Z (order_fn_call fn (slice buffer offset (offset + size)))
         / divisor)%float
  | ByteField => VBytes (slice buffer offset (offset + 1))
  | BytesField size => VBytes (slice buffer offset (offset + size))
  | DateTimeField =>
      VDateTime
        (DateTimeField_decode
           (slice buffer offset (offset + DateTimeField_size)))
  | NumericArrayField num_elems size fn =>
      VList
        (map (fun i =>
                VInt
                  (order_fn_call fn
                     (slice buffer (offset + i * size)
                        (offset + i * size + size))))
           (seq 0 num_elems))
  | FloatingPointArrayField num_elems size fn divisor =>
      VList
        (map (fun i =>
                VFloat
                  (float_of_Z
                     (order_fn_call fn
                        (slice buffer (offset + i * size)
                           (offset + i * size + size)))
                   / divisor)%float)
           (seq 0 num_elems))
  end.

(** *** class Packet *)

Record Packet : Type := {
  packet_format : Value;
  voltage : Value;
  absolute_watt_seconds : Value;
  polarized_watt_seconds : option Value;
  currents : option Value;
  device_id : Value;
  serial_number : Value;
  seconds : Value;
  pulse_counts : Value;
  temperatures : Value;
  time_stamp : Value
}.

(** [Packet.__init__] called with [args] as keyword arguments: the named
    parameters are taken from [args], the other keys are collected and
    dropped. [None] is the default of the optional parameters; [now] is
    what [datetime.now()] returns. *)
Definition Packet_init (now : datetime) (args : dict Value) : result Packet :=
  match getitem "packet_format" args, getitem "voltage" args,
        getitem "absolute_watt_seconds" args, getitem "device_id" args,
        getitem "serial_number" args, getitem "seconds" args,
        getitem "pulse_counts" args, getitem "temperatures" args with
  | Some packet_format, Some voltage, Some absolute_watt_seconds,
    Some device_id, Some serial_number, Some seconds, Some pulse_counts,
    Some temperatures =>
      inr {| packet_format := packet_format;
             voltage := voltage;
             absolute_watt_seconds := absolute_watt_seconds;
             polarized_watt_seconds := getitem "polarized_watt_seconds" args;
             currents := getitem "currents" args;
             device_id := device_id;
             serial_number := serial_number;
             seconds := seconds;
             pulse_counts := pulse_counts;
             temperatures := temperatures;
             time_stamp :=
               match getitem "time_stamp" args with
               | Some time_stamp =>
                   if truthy time_stamp then time_stamp else VDateTime now
               | None => VDateTime now
               end |}
  | _, _, _, _, _, _, _, _ =>
      inl (TypeError "__init__() missing required positional arguments")
  end.

(** [self.packet_format.fields[key]] *)
Definition format_field (self : Packet) (key : string) : result Field :=
  match packet_format self with
  | VPacketFormat f =>
      match getitem key (fields f) with
      | Some field => inr field
      | None => inl (KeyError key)
      end
  | _ => inl (AttributeError "fields")
  end.

Definition type (self : Packet) : result string :=
  match packet_format self with
  | VPacketFormat f => inr (name f)
  | _ => inl (AttributeError "name")
  end.

Definition Packet_num_channels (self : Packet) : result nat :=
  match packet_format self with
  | VPacketFormat f => inr (num_channels f)
  | _ => inl (AttributeError "num_channels")
  end.

(** [field.max] after [assert isinstance(field, NumericField)] *)
Definition numeric_max (field : Field) : result Z :=
  match NumericField_max field with
  | Some m => inr m
  | None => inl AssertionError
  end.

(** [field.elem_field.max] after
    [assert isinstance(field, NumericArrayField)] *)
Definition numeric_array_elem_max (field : Field) : result Z :=
  match field with
  | NumericArrayField _ _ _ =>
      match elem_field field with
      | Some elem =>
          match NumericField_max elem with
          | Some m => inr m
          | None => inl (AttributeError "max")
          end
      | None => inl (AttributeError "elem_field")
      end
  | _ => inl AssertionError
  end.

Definition max_seconds (self : Packet) : result Z :=
  match format_field self "seconds" with
  | inr field => numeric_max field
  | inl e => inl e
  end.

Definition max_pulse_count (self : Packet) : result Z :=
  match format_field self "pulse_counts" with
  | inr field => numeric_array_elem_max field
  | inl e => inl e
  end.

Definition max_absolute_watt_seconds (self : Packet) : result Z :=
  match format_field self "absolute_watt_seconds" with
  | inr field => numeric_array_elem_max field
  | inl e => inl e
  end.

Definition max_polarized_watt_seconds (self : Packet) : result Z :=
  match format_field self "polarized_watt_seconds" with
  | inr field => numeric_array_elem_max field
  | inl e => inl e
  end.

(** *** class PacketFormat *)

Definition NUM_PULSE_COUNTERS : nat := 4.
Definition NUM_TEMPERATURE_SENSORS : nat := 8.

Definition PacketFormat_init (name : string) (num_channels : nat)
    (has_net_metering has_time_stamp : bool) : PacketFormat :=
  let fields : dict Field := [] in
  let fields := setitem "header" (NumericField 3 hi_to_lo) fields in
  let fields := setitem "voltage" (FloatingPointField 2 hi_to_lo 10) fields in
  let fields :=
    setitem "absolute_watt_seconds"
      (NumericArrayField num_channels 5 lo_to_hi) fields in
  let fields :=
    if has_net_metering
    then setitem "polarized_watt_seconds"
           (NumericArrayField num_channels 5 lo_to_hi) fields
    else fields in
  let fields := setitem "serial_number" (NumericField 2 hi_to_lo) fields in
  let fields := setitem "reserved" ByteField fields in
  let fields := setitem "device_id" (NumericField 1 hi_to_lo) fields in
  let fields :=
    setitem "currents"
      (FloatingPointArrayField num_channels 2 lo_to_hi 50) fields in
  let fields := setitem "seconds" (NumericField 3 lo_to_hi) fields in
  let fields :=
    setitem "pulse_counts"
      (NumericArrayField NUM_PULSE_COUNTERS 3 lo_to_hi) fields in
  let fields :=
    setitem "temperatures"
      (FloatingPointArrayField NUM_TEMPERATURE_SENSORS 2 lo_to_hi_signed 2)
      fields in
  let fields :=
    if Nat.eqb num_channels 32
    then setitem "spare_bytes" (BytesField 2) fields
    else fields in
  let fields :=
    if has_time_stamp then setitem "time_stamp" DateTimeField fields
    else fields in
  let fields := setitem "footer" (NumericField 2 hi_to_lo) fields in
  let fields := setitem "checksum" ByteField fields in
  {| name := name; num_channels := num_channels; fields := fields |}.

Definition size (self : PacketFormat) : nat :=
  fold_left (fun result value => result + Field_size value)
    (values (fields self)) 0.

(** [_checksum(packet, size)]: returns normally when the checksum holds. *)
Definition _checksum (packet : list byte) (size : nat) : result unit :=
  let checksum :=
    fold_left (fun checksum i => (checksum + octet i)%Z)
      (slice_to packet (Z.of_nat size - 1)) 0%Z in
  let checksum := (checksum mod 256)%Z in
  match index packet (Z.of_nat size - 1) with
  | None => inl IndexError
  | Some last =>
      if negb (checksum =? octet last)%Z
      then inl (MalformedPacketException
                  ("bad checksum for packet: "
                   ++ bytes_repr (hexlify (slice packet 0 size)))%string)
      else inr tt
  end.

(** The loop of [parse] over [self.fields.items()]: it carries [args] and
    [offset]. *)
Definition read_fields (items : dict Field) (packet : list byte)
    (start : dict Value * nat) : dict Value * nat :=
  fold_left
    (fun '(args, offset) '(key, value) =>
       (setitem key (Field_read value packet offset) args,
        offset + Field_size value))
    items start.

(** [self.parse(packet)], at the time [now]. *)
Definition parse (self : PacketFormat) (now : datetime) (packet : list byte)
    : result Packet :=
  if List.length packet <? size self
  then inl (MalformedPacketException
              ("Packet too short. Expected " ++ str_of_nat (size self)
               ++ " bytes, found " ++ str_of_nat (List.length packet)
               ++ " bytes.")%string)
  else
    match _checksum packet (size self) with
    | inl e => inl e
    | inr _ =>
        let offset := 0 in
        let args := [("packet_format", VPacketFormat self)] in
        let '(args, offset) := read_fields (fields self) packet (args, offset) in
        match getitem "footer" args with
        | None => inl (KeyError "footer")
        | Some footer =>
            if ne_int footer 0xFFFE
            then
              match hex_value footer with
              | inl e => inl e
              | inr h =>
                  inl (MalformedPacketException
                         ("bad footer " ++ h ++ " in packet: "
                          ++ bytes_repr (hexlify packet))%string)
              end
            else Packet_init now args
        end
    end.

End Packets.

Definition BIN48_NET_TIME : PacketFormat :=
  PacketFormat_init "BIN48-NET-TIME" 48 true true.

Definition BIN48_NET : PacketFormat :=
  PacketFormat_init "BIN48-NET" 48 true false.

Definition BIN48_ABS : PacketFormat :=
  PacketFormat_init "BIN48-ABS" 48 false false.

Definition BIN32_NET : PacketFormat :=
  PacketFormat_init "BIN32-NET" 32 true false.

Definition BIN32_ABS : PacketFormat :=
  PacketFormat_init "BIN32-ABS" 32 false false.

End packets.

(** ** The encoder of the round-trip property

    The sources hold no encoder. This one follows the words of the
    specification: the field values are written in declared field order,
    each in its field's width and byte order, the footer is [0xFFFE] and
    the last byte is the sum of the bytes before it modulo 256. *)

Module wire.
Import packets.

(** The byte whose value is [n mod 256]. *)
Definition byte_of_Z (n : Z) : byte :=
  match Byte.of_N (Z.to_N (n mod 256)) with
  | Some b => b
  | None => x00
  end.

Fixpoint encode_little_endian (width : nat) (n : Z) : list byte :=
  match width with
  | 0 => []
  | S width' => byte_of_Z n :: encode_little_endian width' (n / 256)
  end.

(** The bytes of an integer in a field of [width] bytes read by [fn]; a
    signed field holds the two's complement. *)
Definition encode_int (fn : order_fn) (width : nat) (n : Z) : list byte :=
  match fn with
  | hi_to_lo => rev (encode_little_endian width n)
  | lo_to_hi => encode_little_endian width n
  | lo_to_hi_signed =>
      encode_little_endian width (n mod 2 ^ (8 * Z.of_nat width))
  end.

(** The integers a field of [width] bytes read by [fn] can hold. *)
Definition in_range (fn : order_fn) (width : nat) (n : Z) : bool :=
  match fn with
  | hi_to_lo | lo_to_hi => (0 <=? n)%Z && (n <? 2 ^ (8 * Z.of_nat width))%Z
  | lo_to_hi_signed =>
      (0 <? width)
      && (- 2 ^ (8 * Z.of_nat width - 1) <=? n)%Z
      && (n <? 2 ^ (8 * Z.of_nat width - 1))%Z
  end.

(** What is written for one field: an integer (for a scaled field, the
    integer before the division), raw bytes, or one integer per element. *)
Inductive value : Type :=
| Int (n : Z)
| Bytes (b : list byte)
| Ints (l : list Z).

Definition encode_field (field : Field) (v : value) : list byte :=
  match field, v with
  | NumericField size fn, Int n => encode_int fn size n
  | FloatingPointField size fn _, Int n => encode_int fn size n
  | ByteField, Bytes b => b
  | BytesField _, Bytes b => b
  | DateTimeField, Bytes b => b
  | NumericArrayField _ size fn, Ints l => flat_map (encode_int fn size) l
  | FloatingPointArrayField _ size fn _, Ints l =>
      flat_map (encode_int fn size) l
  | _, _ => []
  end.

(** The field values of one packet, as the integers and bytes on the
    wire: the voltage in tenths, the currents in fiftieths and the
    temperatures in halves. *)
Record reading : Type := {
  header : Z;
  voltage : Z;
  absolute_watt_seconds : list Z;
  polarized_watt_seconds : list Z;
  serial_number : Z;
  reserved : byte;
  device_id : Z;
  currents : list Z;
  seconds : Z;
  pulse_counts : list Z;
  temperatures : list Z;
  spare_bytes : list byte;
  time_stamp : list byte
}.

Definition footer : Z := 0xFFFE.

(** The value written for the field named [key]. *)
Definition value_of (r : reading) (key : string) : value :=
  if String.eqb key "header" then Int (header r)
  else if String.eqb key "voltage" then Int (voltage r)
  else if String.eqb key "absolute_watt_seconds"
       then Ints (absolute_watt_seconds r)
  else if String.eqb key "polarized_watt_seconds"
       then Ints (polarized_watt_seconds r)
  else if String.eqb key "serial_number" then Int (serial_number r)
  else if String.eqb key "reserved" then Bytes [reserved r]
  else if String.eqb key "device_id" then Int (device_id r)
  else if String.eqb key "currents" then Ints (currents r)
  else if String.eqb key "seconds" then Int (seconds r)
  else if String.eqb key "pulse_counts" then Ints (pulse_counts r)
  else if String.eqb key "temperatures" then Ints (temperatures r)
  else if String.eqb key "spare_bytes" then Bytes (spare_bytes r)
  else if String.eqb key "time_stamp" then Bytes (time_stamp r)
  else if String.eqb key "footer" then Int footer
  else Bytes [].

Definition encode_fields (items : dict Field) (r : reading) : list byte :=
  flat_map (fun '(key, field) => encode_field field (value_of r key)) items.

(** The sum of the bytes of a buffer. *)
Definition sum_octets (l : list byte) : Z :=
  fold_right (fun b sum => octet b + sum)%Z 0%Z l.

Definition checksum_of (body : list byte) : byte :=
  byte_of_Z (sum_octets body).

(** The buffer for [r] in the format [self]: every field but the last in
    declared order, then the checksum byte. *)
Definition encode (self : PacketFormat) (r : reading) : list byte :=
  let body := encode_fields (removelast (fields self)) r in
  body ++ [checksum_of body].

Section Valid.

Variable datetime : Type.
Variable DateTimeField_size : nat.
Variable DateTimeField_decode : list byte -> datetime.

(** [v] fits [field]: an integer in the range of the field's width, raw
    bytes of the field's length, one integer in range per element. *)
Definition valid_field (field : Field) (v : value) : bool :=
  match field, v with
  | NumericField size fn, Int n => in_range fn size n
  | FloatingPointField size fn _, Int n => in_range fn size n
  | ByteField, Bytes b => Nat.eqb (List.length b) 1
  | BytesField size, Bytes b => Nat.eqb (List.length b) size
  | DateTimeField, Bytes b => Nat.eqb (List.length b) DateTimeField_size
  | NumericArrayField num_elems size fn, Ints l =>
      Nat.eqb (List.length l) num_elems && forallb (in_range fn size) l
  | FloatingPointArrayField num_elems size fn _, Ints l =>
      Nat.eqb (List.length l) num_elems && forallb (in_range fn size) l
  | _, _ => false
  end.

Definition valid_fields (items : dict Field) (r : reading) : bool :=
  forallb (fun '(key, field) => valid_field field (value_of r key)) items.

(** The field values of [r] are valid for the format [self]. *)
Definition valid (self : PacketFormat) (r : reading) : bool :=
  valid_fields (removelast (fields self)) r.

(** What [Field.read] is expected to give back for [v]. *)
Definition decoded (field : Field) (v : value) : Value datetime :=
  match field, v with
  | NumericField _ _, Int n => VInt _ n
  | FloatingPointField _ _ divisor, Int n =>
      VFloat _ (float_of_Z n / divisor)%float
  | DateTimeField, Bytes b => VDateTime _ (DateTimeField_decode b)
  | NumericArrayField _ _ _, Ints l => VList _ (map (VInt _) l)
  | FloatingPointArrayField _ _ _ divisor, Ints l =>
      VList _ (map (fun n => VFloat _ (float_of_Z n / divisor)%float) l)
  | _, Bytes b => VBytes _ b
  | _, _ => VBytes _ []
  end.

(** The [Packet] that holds the field values of [r]: the scaled fields
    are the written integers divided by 10, 50 and 2; the polarized
    counters are present in a net-metering format only, and the time stamp
    is the decoded one in a format that carries it and [now] otherwise. *)
Definition packet_of (self : PacketFormat)
    (has_net_metering has_time_stamp : bool) (now : datetime) (r : reading)
    : Packet datetime :=
  {| packets.packet_format := VPacketFormat _ self;
     packets.voltage := VFloat _ (float_of_Z (voltage r) / 10)%float;
     packets.absolute_watt_seconds :=
       VList _ (map (VInt _) (absolute_watt_seconds r));
     packets.polarized_watt_seconds :=
       if has_net_metering
       then Some (VList _ (map (VInt _) (polarized_watt_seconds r)))
       else None;
     packets.currents :=
       Some (VList _
               (map (fun n => VFloat _ (float_of_Z n / 50)%float)
                  (currents r)));
     packets.device_id := VInt _ (device_id r);
     packets.serial_number := VInt _ (serial_number r);
     packets.seconds := VInt _ (seconds r);
     packets.pulse_counts := VList _ (map (VInt _) (pulse_counts r));
     packets.temperatures :=
       VList _
         (map (fun n => VFloat _ (float_of_Z n / 2)%float) (temperatures r));
     packets.time_stamp :=
       if has_time_stamp
       then VDateTime _ (DateTimeField_decode (time_stamp r))
       else VDateTime _ now |}.

End Valid.

End wire.

(** ** api.py *)

Module api.

(** [datetime.timedelta] as Python keeps it: normalized so that
    [0 <= seconds < 86400] and [0 <= microseconds < 1000000]. *)
Record timedelta : Type := {
  days : Z;
  seconds : Z;
  microseconds : Z
}.

(** The length of time a [timedelta] stands for, in microseconds. *)
Definition total_microseconds (delay : timedelta) : Z :=
  ((days delay * 86400 + seconds delay) * 1000000 + microseconds delay)%Z.

(** What a run of the API code does to the outside, in order: the calls
    of the four protocol methods and the suspensions of [asyncio.sleep]
    with their argument, a number of seconds. *)
Inductive event : Type :=
| BeginApiRequest
| SendApiRequest (request : string)
| ReceiveApiResponse
| EndApiRequest
| Sleep (delay_seconds : Z).

Definition is_end (e : event) : bool :=
  match e with
  | EndApiRequest => true
  | _ => false
  end.

(** How many times [end_api_request] was invoked in a trace. *)
Definition end_calls (trace : list event) : nat :=
  List.length (filter is_end trace).

(** [int(text)] for a [str]: surrounding whitespace is dropped, one sign
    is allowed, and the digits may be grouped by single underscores.
    [max_str_digits] is [sys.get_int_max_str_digits()]: 0 for no limit
    (and for the Python versions without one), 4300 by default. *)
Definition is_space (c : ascii) : bool :=
  let n := nat_of_ascii c in
  ((9 <=? n) && (n <=? 13)) || ((28 <=? n) && (n <=? 32)).

Definition digit_of (c : ascii) : option N :=
  let n := N_of_ascii c in
  if ((48 <=? n) && (n <=? 57))%N then Some (n - 48)%N else None.

Fixpoint lstrip (s : string) : string :=
  match s with
  | String c s' => if is_space c then lstrip s' else s
  | EmptyString => EmptyString
  end.

Fixpoint rstrip (s : string) : string :=
  match s with
  | String c s' =>
      match rstrip s' with
      | EmptyString => if is_space c then EmptyString else String c EmptyString
      | rest => String c rest
      end
  | EmptyString => EmptyString
  end.

(** The value of the digits of [s] after [acc], and how many digits were
    read; [after_digit] tells whether the previous character was a
    digit. *)
Fixpoint digits (s : string) (acc : N) (count : nat) (after_digit : bool)
    : option (N * nat) :=
  match s with
  | EmptyString => if after_digit then Some (acc, count) else None
  | String c s' =>
      match digit_of c with
      | Some d => digits s' (10 * acc + d)%N (S count) true
      | None =>
          if Ascii.eqb c "_" && after_digit then digits s' acc count false
          else None
      end
  end.

Definition int (max_str_digits : nat) (text : string) : result Z :=
  let invalid := inl (ValueError "invalid literal for int() with base 10") in
  let '(negative, literal) :=
    match rstrip (lstrip text) with
    | String "-" rest => (true, rest)
    | String "+" rest => (false, rest)
    | other => (false, other)
    end in
  match digits literal 0 0 false with
  | None => invalid
  | Some (n, count) =>
      if (0 <? max_str_digits) && (max_str_digits <? count)
      then inl (ValueError "Exceeds the limit for integer string conversion")
      else inr (if negative then - Z.of_N n else Z.of_N n)%Z
  end.

(** Modelled from the spec: [BidirectionalProtocol] of [protocol.py] is
    missing from the sources; the spec lists its four operations. Each
    acts on the state [S] of the protocol object, and returns or raises. *)
Record BidirectionalProtocol (S : Type) : Type := {
  begin_api_request : S -> result timedelta * S;
  send_api_request : string -> S -> result timedelta * S;
  receive_api_response : S -> result string * S;
  end_api_request : S -> result unit * S
}.

Arguments begin_api_request {S}.
Arguments send_api_request {S}.
Arguments receive_api_response {S}.
Arguments end_api_request {S}.

(** A coroutine run to completion: it acts on the state of the protocol
    object and on the trace of events, and returns or raises. *)
Definition task (S A : Type) : Type :=
  S * list event -> result A * (S * list event).

Definition ret {S A} (a : A) : task S A := fun w => (inr a, w).

Definition raise {S A} (e : exn) : task S A := fun w => (inl e, w).

Definition bind {S A B} (c : task S A) (k : A -> task S B) : task S B :=
  fun w =>
    match c w with
    | (inl e, w') => (inl e, w')
    | (inr a, w') => k a w'
    end.

(** [try: c finally: cleanup] *)
Definition try_finally {S A} (c : task S A) (cleanup : task S unit)
    : task S A :=
  fun w =>
    let '(r, w1) := c w in
    match cleanup w1 with
    | (inl e, w2) => (inl e, w2)
    | (inr _, w2) => (r, w2)
    end.

(** A value or an exception computed without the protocol. *)
Definition lift {S A} (r : result A) : task S A := fun w => (r, w).

(** A method call on the protocol object, recorded in the trace. *)
Definition invoke {S A} (e : event) (method : S -> result A * S) : task S A :=
  fun '(s, trace) =>
    let '(r, s') := method s in (r, (s', trace ++ [e])).

Declare Scope task_scope.
Delimit Scope task_scope with task.
Notation "x <- c ;; k" := (bind c (fun x => k))
  (at level 61, c at next level, right associativity) : task_scope.
Notation "c ;; k" := (bind c (fun _ => k))
  (at level 61, right associativity) : task_scope.
Local Open Scope task_scope.

(** *** class ApiCall *)

Record ApiCall (T R : Type) : Type := {
  _format_request : T -> result string;
  _parse_response : string -> result R
}.

Arguments _format_request {T R}.
Arguments _parse_response {T R}.

Section CallApi.

Context {S T R : Type}.

(** The event loop: [interrupted trace] tells whether the task is
    cancelled while it is suspended at the end of [trace]. *)
Variable interrupted : list event -> bool.

(** [await asyncio.sleep(delay_seconds)]: the task is suspended, and
    resumes normally or with CancelledError. *)
Definition asyncio_sleep (delay_seconds : Z) : task S unit :=
  fun '(s, trace) =>
    let trace := trace ++ [Sleep delay_seconds] in
    if interrupted trace then (inl CancelledError, (s, trace))
    else (inr tt, (s, trace)).

Definition send_request (self : ApiCall T R)
    (protocol : BidirectionalProtocol S) (arg : T) : task S timedelta :=
  request <- lift (_format_request self arg) ;;
  invoke (SendApiRequest request) (send_api_request protocol request).

Definition receive_response (self : ApiCall T R)
    (protocol : BidirectionalProtocol S) : task S R :=
  response <- invoke ReceiveApiResponse (receive_api_response protocol) ;;
  lift (_parse_response self response).

(** The [send] that [call_api] yields. *)
Definition send (api : ApiCall T R) (protocol : BidirectionalProtocol S)
    (arg : T) : task S R :=
  delay <- send_request api protocol arg ;;
  asyncio_sleep (seconds delay) ;;
  receive_response api protocol.

(** The block of an [async with call_api(api, protocol) as f:] statement,
    as far as the transaction sees it: it returns, raises, or awaits
    [f(arg)] and goes on with what that returned or raised. *)
Inductive block (A : Type) : Type :=
| Return (a : A)
| Raise (e : exn)
| Await (arg : T) (k : result R -> block A).

Arguments Return {A}.
Arguments Raise {A}.
Arguments Await {A}.

Fixpoint run_block {A} (f : T -> task S R) (body : block A) : task S A :=
  match body with
  | Return a => ret a
  | Raise e => raise e
  | Await arg k => fun w => let '(r, w') := f arg w in run_block f (k r) w'
  end.

(** [async with call_api(api, protocol) as f: body]. The context manager
    runs [call_api] up to its [yield], the block runs with the yielded
    [send], and the rest of [call_api] runs when the block is left, with
    the exception of the block raised at the [yield]. *)
Definition call_api {A} (api : ApiCall T R)
    (protocol : BidirectionalProtocol S) (body : block A) : task S A :=
  delay <- invoke BeginApiRequest (begin_api_request protocol) ;;
  try_finally
    (asyncio_sleep (seconds delay) ;; run_block (send api protocol) body)
    (invoke EndApiRequest (end_api_request protocol)).

End CallApi.

Arguments Return {T R A}.
Arguments Raise {T R A}.
Arguments Await {T R A}.

Section GetSerialNumber.

(** The command literal of [const.py], which is missing from the sources,
    and the interpreter's limit on the digits of [int()]. *)
Variable CMD_GET_SERIAL_NUMBER : string.
Variable max_str_digits : nat.
Variable interrupted : list event -> bool.

(** [lambda _: CMD_GET_SERIAL_NUMBER], on an argument of any type. *)
Definition GET_SERIAL_NUMBER_formatter {T} (_ : T) : result string :=
  inr CMD_GET_SERIAL_NUMBER.

(** [lambda response: int(response)] *)
Definition GET_SERIAL_NUMBER_parser (response : string) : result Z :=
  int max_str_digits response.

Definition GET_SERIAL_NUMBER : ApiCall unit Z :=
  {| _format_request := GET_SERIAL_NUMBER_formatter;
     _parse_response := GET_SERIAL_NUMBER_parser |}.

Definition get_serial_number {S} (protocol : BidirectionalProtocol S)
    : task S Z :=
  call_api interrupted GET_SERIAL_NUMBER protocol
    (Await tt (fun r =>
                 match r with
                 | inr n => Return n
                 | inl e => Raise e
                 end)).

End GetSerialNumber.

End api.

(** ** Sample data

    A timestamp decoder, a reading and buffers on which the statements
    below are evaluated. *)

Module samples.
Import packets.

(** A timestamp kept as its six encoded bytes. *)
Definition datetime : Type := list byte.
Definition DateTimeField_size : nat := 6.
Definition DateTimeField_decode (encoded : list byte) : datetime := encoded.
Definition now : datetime := [x17; x0b; x03; x0c; x00; x00].

(** A reading for the 48-channel net-metering format with a time stamp:
    120.0 V, channel [i] at [1000 + i] watt-seconds, 5.0 A on each
    channel, temperatures from -10.0 up. *)
Definition reading : wire.reading :=
  {| wire.header := 0xFEFF05;
     wire.voltage := 1200;
     wire.absolute_watt_seconds := map Z.of_nat (seq 1000 48);
     wire.polarized_watt_seconds := map Z.of_nat (seq 500 48);
     wire.serial_number := 12345;
     wire.reserved := x00;
     wire.device_id := 1;
     wire.currents := repeat 250%Z 48;
     wire.seconds := 16777215;
     wire.pulse_counts := [0; 1; 2; 16777215]%Z;
     wire.temperatures := [-20; -1; 0; 1; 20; 32767; -32768; 44]%Z;
     wire.spare_bytes := [];
     wire.time_stamp := [x15; x06; x0f; x0a; x1e; x2d] |}.

(** 379 zero bytes: a BIN48-ABS buffer whose checksum holds and whose
    footer is 0. *)
Definition zeros : list byte := repeat x00 379.

(** A BIN48-ABS buffer of zero readings with the footer and its checksum. *)
Definition minimal : list byte := repeat x00 376 ++ [xff; xfe; xfd].

(** [zeros] followed by one more byte. *)
Definition trailing : list byte := zeros ++ [x01].

(** The reading that [minimal] encodes, and the packet it parses to. *)
Definition zero_reading : wire.reading :=
  {| wire.header := 0;
     wire.voltage := 0;
     wire.absolute_watt_seconds := repeat 0%Z 48;
     wire.polarized_watt_seconds := [];
     wire.serial_number := 0;
     wire.reserved := x00;
     wire.device_id := 0;
     wire.currents := repeat 0%Z 48;
     wire.seconds := 0;
     wire.pulse_counts := repeat 0%Z 4;
     wire.temperatures := repeat 0%Z 8;
     wire.spare_bytes := [];
     wire.time_stamp := [] |}.

Definition minimal_packet : Packet datetime :=
  wire.packet_of datetime DateTimeField_decode BIN48_ABS false false now
    zero_reading.

(** An event loop that never cancels the task. *)
Definition undisturbed (trace : list api.event) : bool := false.

(** An event loop that cancels the task during its first suspension. *)
Definition cancelling (trace : list api.event) : bool :=
  Nat.eqb (List.length (filter (fun e => negb (api.is_end e)) trace)) 2.

(** The command literal and two delays. *)
Definition CMD_GET_SERIAL_NUMBER : string := "^^^RQSSRN".

Definition three_seconds : api.timedelta :=
  {| api.days := 0; api.seconds := 3; api.microseconds := 0 |}.

Definition half_a_second : api.timedelta :=
  {| api.days := 0; api.seconds := 0; api.microseconds := 500000 |}.

(** A protocol object without state that asks for [delay] after each
    request and answers [response]. *)
Definition answering (delay : api.timedelta) (response : string)
    : api.BidirectionalProtocol unit :=
  {| api.begin_api_request := fun s => (inr delay, s);
     api.send_api_request := fun _ s => (inr delay, s);
     api.receive_api_response := fun s => (inr response, s);
     api.end_api_request := fun s => (inr tt, s) |}.

(** A protocol object whose [begin_api_request] raises, as one that is
    not in the state to take an API request does. *)
Definition refusing : api.BidirectionalProtocol unit :=
  {| api.begin_api_request :=
       fun s => (inl (Exception "not ready for an API request"), s);
     api.send_api_request := fun _ s => (inr three_seconds, s);
     api.receive_api_response := fun s => (inr "123456", s);
     api.end_api_request := fun s => (inr tt, s) |}.

End samples.

(** ** Facts about packets.py *)

Module packets_facts.
Import packets.

(** *** The declared layout *)

(** The fields of a format in declared order, as the assignments of
    [PacketFormat.__init__] leave them. *)
Definition layout (num_channels : nat) (has_net_metering has_time_stamp : bool)
    : dict Field :=
  [("header", NumericField 3 hi_to_lo);
   ("voltage", FloatingPointField 2 hi_to_lo 10);
   ("absolute_watt_seconds", NumericArrayField num_channels 5 lo_to_hi)]
  ++ (if has_net_metering
      then [("polarized_watt_seconds",
             NumericArrayField num_channels 5 lo_to_hi)]
      else [])
  ++ [("serial_number", NumericField 2 hi_to_lo);
      ("reserved", ByteField);
      ("device_id", NumericField 1 hi_to_lo);
      ("currents", FloatingPointArrayField num_channels 2 lo_to_hi 50);
      ("seconds", NumericField 3 lo_to_hi);
      ("pulse_counts", NumericArrayField 4 3 lo_to_hi);
      ("temperatures", FloatingPointArrayField 8 2 lo_to_hi_signed 2)]
  ++ (if Nat.eqb num_channels 32 then [("spare_bytes", BytesField 2)] else [])
  ++ (if has_time_stamp then [("time_stamp", DateTimeField)] else [])
  ++ [("footer", NumericField 2 hi_to_lo); ("checksum", ByteField)].

(** The five formats of the module. *)
Inductive variant : Type :=
| Bin48NetTime
| Bin48Net
| Bin48Abs
| Bin32Net
| Bin32Abs.

Definition format_of (v : variant) : PacketFormat :=
  match v with
  | Bin48NetTime => BIN48_NET_TIME
  | Bin48Net => BIN48_NET
  | Bin48Abs => BIN48_ABS
  | Bin32Net => BIN32_NET
  | Bin32Abs => BIN32_ABS
  end.

Definition channels_of (v : variant) : nat :=
  match v with
  | Bin48NetTime | Bin48Net | Bin48Abs => 48
  | Bin32Net | Bin32Abs => 32
  end.

Definition net_metering_of (v : variant) : bool :=
  match v with
  | Bin48NetTime | Bin48Net | Bin32Net => true
  | Bin48Abs | Bin32Abs => false
  end.

Definition time_stamp_of (v : variant) : bool :=
  match v with
  | Bin48NetTime => true
  | _ => false
  end.

Definition name_of (v : variant) : string :=
  match v with
  | Bin48NetTime => "BIN48-NET-TIME"
  | Bin48Net => "BIN48-NET"
  | Bin48Abs => "BIN48-ABS"
  | Bin32Net => "BIN32-NET"
  | Bin32Abs => "BIN32-ABS"
  end.

(** The bytes of a format that scale with its channel count: the array
    fields with one element per channel. *)
Definition channel_bytes (DateTimeField_size : nat) (self : PacketFormat) : nat :=
  list_sum
    (map (fun field =>
            match field with
            | NumericArrayField num_elems _ _
            | FloatingPointArrayField num_elems _ _ _ =>
                if Nat.eqb num_elems (num_channels self)
                then Field_size DateTimeField_size field
                else 0
            | _ => 0
            end)
       (values (fields self))).

(** The channel-independent overhead of a format. *)
Definition overhead (DateTimeField_size : nat) (self : PacketFormat) : Z :=
  (Z.of_nat (size DateTimeField_size self)
   - Z.of_nat (channel_bytes DateTimeField_size self))%Z.

Lemma format_of_init (v : variant) :
  format_of v
  = PacketFormat_init (name_of v) (channels_of v) (net_metering_of v)
      (time_stamp_of v).
Proof. destruct v; reflexivity. Qed.

Lemma fields_PacketFormat_init name n net ts :
  fields (PacketFormat_init name n net ts) = layout n net ts.
Proof.
  unfold PacketFormat_init, layout.
  destruct net, ts, (Nat.eqb n 32); reflexivity.
Qed.

Lemma fold_left_add_shift {A} (f : A -> nat) (l : list A) (start : nat) :
  fold_left (fun result value => result + f value) l start
  = start + list_sum (map f l).
Proof.
  revert start; induction l as [|x l IH]; intros start; simpl.
  - lia.
  - rewrite IH. lia.
Qed.

Section Sizes.

Variable DateTimeField_size : nat.

Lemma size_is_sum (self : PacketFormat) :
  size DateTimeField_size self
  = list_sum (map (Field_size DateTimeField_size) (values (fields self))).
Proof. unfold size. now rewrite fold_left_add_shift. Qed.

Lemma size_PacketFormat_init name n net ts :
  size DateTimeField_size (PacketFormat_init name n net ts)
  = 3 + 2 + n * 5 + (if net then n * 5 else 0) + 2 + 1 + 1 + n * 2 + 3
    + 4 * 3 + 8 * 2 + (if Nat.eqb n 32 then 2 else 0)
    + (if ts then DateTimeField_size else 0) + 2 + 1.
Proof.
  rewrite size_is_sum, fields_PacketFormat_init. unfold layout.
  destruct net, ts, (Nat.eqb n 32); simpl; lia.
Qed.

(** C7: the size of each of the five formats is the sum of its declared
    field widths, which are those of the layout table; and the
    channel-independent overhead of a 32-channel format is 2 bytes more
    than that of the 48-channel format with the same fields, for the
    net-metering pair (12 bytes per channel) and for the absolute-only pair
    (7 bytes per channel). *)
Theorem size_sum_of_widths_and_spare_bytes :
  (forall v : variant,
      size DateTimeField_size (format_of v)
      = list_sum
          (map (Field_size DateTimeField_size) (values (fields (format_of v)))))
  /\ size DateTimeField_size BIN48_NET_TIME
     = 3 + 2 + 48 * 5 + 48 * 5 + 2 + 1 + 1 + 48 * 2 + 3 + 4 * 3 + 8 * 2
       + DateTimeField_size + 2 + 1
  /\ size DateTimeField_size BIN48_NET
     = 3 + 2 + 48 * 5 + 48 * 5 + 2 + 1 + 1 + 48 * 2 + 3 + 4 * 3 + 8 * 2 + 2 + 1
  /\ size DateTimeField_size BIN48_ABS
     = 3 + 2 + 48 * 5 + 2 + 1 + 1 + 48 * 2 + 3 + 4 * 3 + 8 * 2 + 2 + 1
  /\ size DateTimeField_size BIN32_NET
     = 3 + 2 + 32 * 5 + 32 * 5 + 2 + 1 + 1 + 32 * 2 + 3 + 4 * 3 + 8 * 2 + 2
       + 2 + 1
  /\ size DateTimeField_size BIN32_ABS
     = 3 + 2 + 32 * 5 + 2 + 1 + 1 + 32 * 2 + 3 + 4 * 3 + 8 * 2 + 2 + 2 + 1
  /\ (Z.of_nat (size DateTimeField_size BIN32_NET) - 32 * 12
      = (Z.of_nat (size DateTimeField_size BIN48_NET) - 48 * 12) + 2)%Z
  /\ (Z.of_nat (size DateTimeField_size BIN32_ABS) - 32 * 7
      = (Z.of_nat (size DateTimeField_size BIN48_ABS) - 48 * 7) + 2)%Z
  /\ channel_bytes DateTimeField_size BIN32_NET = 32 * 12
  /\ channel_bytes DateTimeField_size BIN48_NET = 48 * 12
  /\ channel_bytes DateTimeField_size BIN32_ABS = 32 * 7
  /\ channel_bytes DateTimeField_size BIN48_ABS = 48 * 7
  /\ (overhead DateTimeField_size BIN32_NET
      = overhead DateTimeField_size BIN48_NET + 2)%Z
  /\ (overhead DateTimeField_size BIN32_ABS
      = overhead DateTimeField_size BIN48_ABS + 2)%Z.
Proof.
  split; [intros v; apply size_is_sum|].
  unfold overhead, BIN48_NET_TIME, BIN48_NET, BIN48_ABS, BIN32_NET, BIN32_ABS.
  rewrite !size_PacketFormat_init.
  repeat split; try reflexivity; cbn; lia.
Qed.

End Sizes.

(** *** Bytes and byte orders *)

Lemma octet_range (b : byte) : (0 <= octet b < 256)%Z.
Proof. unfold octet. pose proof (Byte.to_N_bounded b). lia. Qed.

Lemma octet_byte_of_Z (n : Z) : octet (wire.byte_of_Z n) = (n mod 256)%Z.
Proof.
  unfold wire.byte_of_Z, octet.
  pose proof (Z.mod_pos_bound n 256 eq_refl) as Hm.
  destruct (Byte.of_N (Z.to_N (n mod 256))) as [b|] eqn:E.
  - apply Byte.to_of_N in E. rewrite E. apply Z2N.id. lia.
  - apply Byte.of_N_None_iff in E. lia.
Qed.

Lemma length_encode_little_endian (width : nat) (n : Z) :
  List.length (wire.encode_little_endian width n) = width.
Proof.
  revert n; induction width as [|w IH]; intros n; simpl; [|rewrite IH];
    reflexivity.
Qed.

Lemma little_endian_encode (width : nat) (n : Z) :
  little_endian (wire.encode_little_endian width n)
  = (n mod 2 ^ (8 * Z.of_nat width))%Z.
Proof.
  revert n; induction width as [|w IH]; intros n.
  - simpl. now rewrite Z.mod_1_r.
  - cbn [wire.encode_little_endian little_endian].
    rewrite octet_byte_of_Z, IH.
    replace (8 * Z.of_nat (S w))%Z with (8 + 8 * Z.of_nat w)%Z by lia.
    rewrite Z.pow_add_r by lia.
    change (2 ^ 8)%Z with 256%Z.
    rewrite Z.rem_mul_r by (try apply Z.pow_pos_nonneg; lia).
    reflexivity.
Qed.

Lemma little_endian_range (octets : list byte) :
  (0 <= little_endian octets < 2 ^ (8 * Z.of_nat (List.length octets)))%Z.
Proof.
  induction octets as [|b rest IH].
  - simpl. lia.
  - cbn [little_endian List.length].
    replace (8 * Z.of_nat (S (List.length rest)))%Z
      with (8 + 8 * Z.of_nat (List.length rest))%Z by lia.
    rewrite Z.pow_add_r by lia. change (2 ^ 8)%Z with 256%Z.
    pose proof (octet_range b). nia.
Qed.

Lemma twos_complement_mod (bits n : Z) :
  (0 < bits)%Z ->
  (- 2 ^ (bits - 1) <= n < 2 ^ (bits - 1))%Z ->
  twos_complement bits (n mod 2 ^ bits) = n.
Proof.
  intros Hbits Hn. unfold twos_complement.
  assert (Hpow : (2 ^ bits = 2 * 2 ^ (bits - 1))%Z).
  { rewrite <- Z.pow_succ_r by lia. f_equal. lia. }
  assert (Hpos : (0 < 2 ^ (bits - 1))%Z) by (apply Z.pow_pos_nonneg; lia).
  pose proof (Z.testbit_spec' (n mod 2 ^ bits) (bits - 1) ltac:(lia)) as Hbit.
  destruct (Z.le_gt_cases 0 n) as [Hnn|Hneg].
  - rewrite Z.mod_small in * by lia.
    rewrite Z.div_small in Hbit by lia.
    destruct (Z.testbit n (bits - 1)); [discriminate Hbit | reflexivity].
  - assert (Hm : (n mod 2 ^ bits = n + 2 ^ bits)%Z).
    { symmetry. apply Z.mod_unique with (q := (-1)%Z); lia. }
    rewrite Hm in *.
    assert (Hq : ((n + 2 ^ bits) / 2 ^ (bits - 1) = 1)%Z).
    { symmetry. apply Z.div_unique with (r := (n + 2 ^ (bits - 1))%Z); lia. }
    rewrite Hq in Hbit.
    destruct (Z.testbit (n + 2 ^ bits) (bits - 1)); [lia | discriminate Hbit].
Qed.

Lemma length_encode_int (fn : order_fn) (width : nat) (n : Z) :
  List.length (wire.encode_int fn width n) = width.
Proof.
  destruct fn; simpl; rewrite ?length_rev; apply length_encode_little_endian.
Qed.

(** Reading back an integer written in the byte order of its field. *)
Lemma order_fn_call_encode_int (fn : order_fn) (width : nat) (n : Z) :
  wire.in_range fn width n = true ->
  order_fn_call fn (wire.encode_int fn width n) = n.
Proof.
  destruct fn; cbn [wire.in_range wire.encode_int order_fn_call]; intros H.
  - rewrite rev_involutive, little_endian_encode.
    apply andb_prop in H as [H1 H2].
    apply Z.mod_small. lia.
  - rewrite little_endian_encode.
    apply andb_prop in H as [H1 H2].
    apply Z.mod_small. lia.
  - apply andb_prop in H as [H H3]. apply andb_prop in H as [H1 H2].
    apply Nat.ltb_lt in H1.
    rewrite length_encode_little_endian, little_endian_encode.
    rewrite Z.mod_mod by (apply Z.pow_nonzero; lia).
    apply twos_complement_mod; lia.
Qed.

(** *** Slices of a buffer built by concatenation *)

Lemma slice_app {A} (pre mid post : list A) (offset stop : nat) :
  List.length pre = offset ->
  stop = offset + List.length mid ->
  slice (pre ++ mid ++ post) offset stop = mid.
Proof.
  intros <- ->. unfold slice.
  replace (List.length pre + List.length mid - List.length pre)
    with (List.length mid) by lia.
  rewrite skipn_app, skipn_all, Nat.sub_diag. cbn [skipn app].
  rewrite firstn_app, firstn_all, Nat.sub_diag. cbn [firstn].
  apply app_nil_r.
Qed.

Lemma length_flat_map_encode_int fn size (l : list Z) :
  List.length (flat_map (wire.encode_int fn size) l) = List.length l * size.
Proof.
  induction l as [|n l IH]; simpl; [reflexivity|].
  now rewrite length_app, length_encode_int, IH.
Qed.

(** The element reads of an array field, over the written elements. *)
Lemma map_read_elements {X} (g : Z -> X) fn size (l : list Z) :
  forallb (wire.in_range fn size) l = true ->
  forall pre post,
    map (fun i =>
           g (order_fn_call fn
                (slice (pre ++ flat_map (wire.encode_int fn size) l ++ post)
                   (List.length pre + i * size)
                   (List.length pre + i * size + size))))
      (seq 0 (List.length l))
    = map g l.
Proof.
  induction l as [|n l IH]; intros Hall pre post; [reflexivity|].
  cbn [forallb] in Hall. apply andb_prop in Hall as [Hn Hall].
  cbn [List.length seq map flat_map]. f_equal.
  - rewrite <- app_assoc, slice_app; try rewrite length_encode_int; try lia.
    now rewrite order_fn_call_encode_int.
  - rewrite <- seq_shift, map_map.
    rewrite <- (IH Hall (pre ++ wire.encode_int fn size n) post).
    apply map_ext; intros i.
    rewrite length_app, length_encode_int, <- !app_assoc.
    do 3 f_equal; simpl; lia.
Qed.

(** *** Reading what the encoder wrote *)

Section Decoding.

Variable datetime : Type.
Variable DateTimeField_size : nat.
Variable DateTimeField_decode : list byte -> datetime.

Local Abbreviation read :=
  (Field_read datetime DateTimeField_size DateTimeField_decode).
Local Abbreviation width := (Field_size DateTimeField_size).
Local Abbreviation fits := (wire.valid_field DateTimeField_size).
Local Abbreviation decoded := (wire.decoded datetime DateTimeField_decode).

Lemma length_encode_field (field : Field) (v : wire.value) :
  fits field v = true ->
  List.length (wire.encode_field field v) = width field.
Proof.
  destruct field, v; cbn; intros H; try discriminate H;
    try apply length_encode_int;
    try (apply Nat.eqb_eq in H; exact H).
  all: apply andb_prop in H as [H _]; apply Nat.eqb_eq in H;
    now rewrite length_flat_map_encode_int, H.
Qed.

Lemma Field_read_encode_field (field : Field) (v : wire.value)
    (pre post : list byte) :
  fits field v = true ->
  read field (pre ++ wire.encode_field field v ++ post) (List.length pre)
  = decoded field v.
Proof.
  intros H. pose proof (length_encode_field field v H) as Hlen.
  destruct field, v; cbn in H; try discriminate H;
    cbn [Field_read wire.decoded wire.encode_field] in *.
  - rewrite slice_app, order_fn_call_encode_int; auto.
  - rewrite slice_app, order_fn_call_encode_int; auto.
  - rewrite slice_app; auto.
  - rewrite slice_app; auto.
  - rewrite slice_app; auto.
  - apply andb_prop in H as [Hn Hall]. apply Nat.eqb_eq in Hn. subst num_elems.
    f_equal. apply (map_read_elements (VInt datetime)); assumption.
  - apply andb_prop in H as [Hn Hall]. apply Nat.eqb_eq in Hn. subst num_elems.
    f_equal.
    apply (map_read_elements
             (fun n => VFloat datetime (float_of_Z n / divisor)%float));
      assumption.
Qed.

(** The [args] that the loop of [parse] builds from the written values. *)
Definition set_decoded (items : dict Field) (r : wire.reading)
    (args : dict (Value datetime)) : dict (Value datetime) :=
  fold_left
    (fun args '(key, field) =>
       setitem key (decoded field (wire.value_of r key)) args)
    items args.

Lemma length_encode_fields (items : dict Field) (r : wire.reading) :
  wire.valid_fields DateTimeField_size items r = true ->
  List.length (wire.encode_fields items r) = list_sum (map width (values items)).
Proof.
  induction items as [|[key field] items IH]; intros H; [reflexivity|].
  cbn in H. apply andb_prop in H as [Hf H].
  cbn [wire.encode_fields flat_map values map list_sum snd].
  rewrite length_app, (length_encode_field _ _ Hf).
  cbn [list_sum fold_right]. f_equal. now apply IH.
Qed.

Lemma read_fields_encode_fields (items : dict Field) (r : wire.reading) :
  wire.valid_fields DateTimeField_size items r = true ->
  forall pre post args,
    read_fields datetime DateTimeField_size DateTimeField_decode items
      (pre ++ wire.encode_fields items r ++ post) (args, List.length pre)
    = (set_decoded items r args,
       List.length pre + List.length (wire.encode_fields items r)).
Proof.
  induction items as [|[key field] items IH]; intros H pre post args.
  - cbn. f_equal. lia.
  - cbn in H. apply andb_prop in H as [Hf H].
    cbn [wire.encode_fields flat_map read_fields fold_left set_decoded].
    rewrite <- app_assoc, Field_read_encode_field by assumption.
    specialize (IH H (pre ++ wire.encode_field field (wire.value_of r key))
                  post
                  (setitem key (decoded field (wire.value_of r key)) args)).
    unfold read_fields, wire.encode_fields in IH.
    rewrite length_app, length_encode_field in IH by assumption.
    rewrite <- !app_assoc in IH. rewrite IH.
    rewrite length_app, length_encode_field by assumption.
    f_equal. unfold set_decoded. lia.
Qed.

Lemma read_fields_app (a b : dict Field) (packet : list byte) start :
  read_fields datetime DateTimeField_size DateTimeField_decode (a ++ b) packet
    start
  = read_fields datetime DateTimeField_size DateTimeField_decode b packet
      (read_fields datetime DateTimeField_size DateTimeField_decode a packet
         start).
Proof. apply fold_left_app. Qed.

End Decoding.

(** *** The checksum *)

Lemma fold_left_sum_octets (l : list byte) (start : Z) :
  fold_left (fun checksum i => (checksum + octet i)%Z) l start
  = (start + wire.sum_octets l)%Z.
Proof.
  revert start; induction l as [|b l IH]; intros start; cbn.
  - lia.
  - rewrite IH. unfold wire.sum_octets. lia.
Qed.

(** The message of a checksum failure. *)
Definition bad_checksum (packet : list byte) (size : nat) : exn :=
  MalformedPacketException
    ("bad checksum for packet: " ++ bytes_repr (hexlify (firstn size packet))).

(** [_checksum] on a buffer of at least [size] bytes: the sum of the first
    [size - 1] bytes modulo 256 against the byte at index [size - 1]. *)
Lemma checksum_cases (packet : list byte) (size : nat) :
  0 < size <= List.length packet ->
  _checksum packet size
  = if (wire.sum_octets (firstn (size - 1) packet) mod 256
        =? octet (nth (size - 1) packet x00))%Z
    then inr tt
    else inl (bad_checksum packet size).
Proof.
  intros Hsize. unfold _checksum, slice_to, index, bad_checksum, slice.
  destruct (Z.ltb_spec (Z.of_nat size - 1) 0) as [Hneg|_]; [lia|].
  replace (Z.to_nat (Z.of_nat size - 1)) with (size - 1) by lia.
  rewrite (nth_error_nth' packet x00) by lia.
  rewrite fold_left_sum_octets, Z.add_0_l, Nat.sub_0_r. cbn [skipn].
  now destruct (Z.eqb _ _).
Qed.

(** *** The outcomes of parse *)

Lemma append_assoc (a b c : string) :
  ((a ++ b) ++ c)%string = (a ++ (b ++ c))%string.
Proof. induction a as [|ch a IH]; cbn; [reflexivity | now rewrite IH]. Qed.

(** [needle] occurs in [text]. *)
Definition contains (text needle : string) : Prop :=
  exists before after : string, text = (before ++ needle ++ after)%string.

Section Parsing.

Variable datetime : Type.
Variable DateTimeField_size : nat.
Variable DateTimeField_decode : list byte -> datetime.

Local Abbreviation size := (packets.size DateTimeField_size).
Local Abbreviation parse :=
  (packets.parse datetime DateTimeField_size DateTimeField_decode).

(** The [args] of [parse] after its loop. *)
Definition read_args (self : PacketFormat) (packet : list byte)
    : dict (Value datetime) :=
  fst (read_fields datetime DateTimeField_size DateTimeField_decode
         (fields self) packet
         ([("packet_format", VPacketFormat datetime self)], 0)).

(** The footer as [parse] decodes it: the two bytes before the checksum
    byte, most significant first. *)
Definition decoded_footer (self : PacketFormat) (packet : list byte) : Z :=
  order_fn_call hi_to_lo (slice packet (size self - 3) (size self - 1)).

(** The three failures of [parse]. *)
Definition too_short (self : PacketFormat) (packet : list byte) : exn :=
  MalformedPacketException
    ("Packet too short. Expected " ++ str_of_nat (size self)
     ++ " bytes, found " ++ str_of_nat (List.length packet) ++ " bytes.").

Definition bad_footer (self : PacketFormat) (packet : list byte) : exn :=
  MalformedPacketException
    ("bad footer " ++ hex (decoded_footer self packet) ++ " in packet: "
     ++ bytes_repr (hexlify packet)).

Lemma size_lower_bound name n net ts :
  43 <= size (PacketFormat_init name n net ts).
Proof.
  rewrite size_PacketFormat_init.
  destruct net, ts, (Nat.eqb n 32); lia.
Qed.

Lemma read_args_PacketFormat_init name n net ts now packet :
  let self := PacketFormat_init name n net ts in
  getitem "footer" (read_args self packet)
  = Some (VInt datetime (decoded_footer self packet))
  /\ exists p,
      Packet_init datetime now (read_args self packet) = inr p
      /\ packet_format datetime p = VPacketFormat datetime self.
Proof.
  intros self. unfold read_args, decoded_footer. subst self.
  rewrite size_PacketFormat_init, fields_PacketFormat_init.
  generalize (PacketFormat_init name n net ts) as self; intros self.
  unfold layout.
  destruct net, ts, (Nat.eqb n 32);
    cbn [app read_fields fold_left setitem String.eqb Ascii.eqb Bool.eqb
         getitem fst Packet_init Field_read];
    (split;
     [ do 3 f_equal; unfold slice; cbn [Field_size];
       f_equal; [|f_equal]; lia
     | eexists; split; reflexivity ]).
Qed.

(** [parse] on a format built by [PacketFormat.__init__], step by step. *)
Lemma parse_cases name n net ts now packet :
  let self := PacketFormat_init name n net ts in
  parse self now packet
  = if List.length packet <? size self then inl (too_short self packet)
    else if (wire.sum_octets (firstn (size self - 1) packet) mod 256
             =? octet (nth (size self - 1) packet x00))%Z
         then if (decoded_footer self packet =? 0xFFFE)%Z
              then Packet_init datetime now (read_args self packet)
              else inl (bad_footer self packet)
         else inl (bad_checksum packet (size self)).
Proof.
  intros self. unfold packets.parse. fold (too_short self packet).
  destruct (Nat.ltb_spec (List.length packet) (size self)) as [|Hlen];
    [reflexivity|].
  pose proof (size_lower_bound name n net ts) as Hsize. fold self in Hsize.
  rewrite checksum_cases by lia.
  destruct (Z.eqb _ _); [|reflexivity].
  pose proof (read_args_PacketFormat_init name n net ts now packet)
    as [Hfooter _].
  fold self in Hfooter. unfold read_args in *.
  destruct (read_fields _ _ _ _ _ _) as [args offset]. cbn [fst] in *.
  rewrite Hfooter. cbn [ne_int hex_value].
  now destruct (Z.eqb _ _).
Qed.

(** The checksum check of [parse] fails on [packet]. *)
Definition checksum_fails (self : PacketFormat) (packet : list byte) : Prop :=
  (wire.sum_octets (firstn (size self - 1) packet) mod 256
   <> octet (nth (size self - 1) packet x00))%Z.

Lemma parse_raises_iff_init name n net ts now packet :
  let self := PacketFormat_init name n net ts in
  ((exists msg, parse self now packet = inl (MalformedPacketException msg))
   <-> (List.length packet < size self
        \/ checksum_fails self packet
        \/ decoded_footer self packet <> 0xFFFE%Z))
  /\ ((exists msg, parse self now packet = inl (MalformedPacketException msg))
      \/ (exists p, parse self now packet = inr p)).
Proof.
  intros self. subst self. rewrite parse_cases. unfold checksum_fails.
  set (self := PacketFormat_init name n net ts).
  destruct (read_args_PacketFormat_init name n net ts now packet)
    as [_ [p [Hp _]]].
  fold self in Hp. rewrite Hp.
  destruct (Nat.ltb_spec (List.length packet) (size self)) as [Hlen|Hlen].
  { split; [split; eauto | left]; unfold too_short; eauto. }
  destruct (Z.eqb_spec (wire.sum_octets (firstn (size self - 1) packet) mod 256)
              (octet (nth (size self - 1) packet x00))) as [Hsum|Hsum].
  2: { split; [split; eauto | left]; unfold bad_checksum; eauto. }
  destruct (Z.eqb_spec (decoded_footer self packet) 0xFFFE) as [Hfoot|Hfoot].
  2: { split; [split; eauto | left]; unfold bad_footer; eauto. }
  split; [|right; eauto].
  split; [intros [msg Hmsg]; discriminate Hmsg|].
  intros [H|[H|H]]; [lia | contradiction | contradiction].
Qed.

(** C2: on each of the five formats, [parse] raises MalformedPacket
    exactly when the buffer is shorter than the format's size, or the
    checksum check fails, or the decoded footer is not 0xFFFE; and it
    either raises MalformedPacket or returns a constructed Packet. *)
Theorem parse_raises_MalformedPacket_iff (v : variant) now packet :
  ((exists msg,
       parse (format_of v) now packet = inl (MalformedPacketException msg))
   <-> (List.length packet < size (format_of v)
        \/ checksum_fails (format_of v) packet
        \/ decoded_footer (format_of v) packet <> 0xFFFE%Z))
  /\ ((exists msg,
          parse (format_of v) now packet = inl (MalformedPacketException msg))
      \/ (exists p, parse (format_of v) now packet = inr p)).
Proof. rewrite format_of_init. apply parse_raises_iff_init. Qed.

(** C3, as the code has it: for a buffer of at least the format's size,
    the checksum validation of [parse] takes the sum of the first
    [size - 1] bytes modulo 256 and fails with MalformedPacket if and only
    if that differs from the byte at index [size - 1]; [parse] then raises
    that failure. Bytes past the format's size are not looked at; for a
    buffer of exactly [size] bytes these are all bytes but the last, and
    the last byte. *)
Theorem checksum_validation (v : variant) packet :
  size (format_of v) <= List.length packet ->
  ((exists msg,
       _checksum packet (size (format_of v))
       = inl (MalformedPacketException msg))
   <-> checksum_fails (format_of v) packet)
  /\ (_checksum packet (size (format_of v)) = inr tt
      <-> ~ checksum_fails (format_of v) packet)
  /\ (forall now,
         checksum_fails (format_of v) packet ->
         parse (format_of v) now packet
         = inl (bad_checksum packet (size (format_of v))))
  /\ (List.length packet = size (format_of v) ->
      firstn (size (format_of v) - 1) packet = removelast packet
      /\ nth (size (format_of v) - 1) packet x00 = last packet x00).
Proof.
  rewrite format_of_init. intros Hlen.
  pose proof (size_lower_bound (name_of v) (channels_of v) (net_metering_of v)
                (time_stamp_of v)) as Hsize.
  unfold checksum_fails.
  set (self := PacketFormat_init _ _ _ _) in *.
  rewrite checksum_cases by lia.
  repeat split.
  - intros [msg H]. destruct (Z.eqb_spec (wire.sum_octets
      (firstn (size self - 1) packet) mod 256)
      (octet (nth (size self - 1) packet x00))); [discriminate H | assumption].
  - intros H. apply Z.eqb_neq in H. rewrite H. unfold bad_checksum. eauto.
  - intros H Hne. apply Z.eqb_neq in Hne. rewrite Hne in H. discriminate H.
  - intros H. destruct (Z.eqb_spec (wire.sum_octets
      (firstn (size self - 1) packet) mod 256)
      (octet (nth (size self - 1) packet x00))); [reflexivity | contradiction].
  - intros now H. subst self. rewrite parse_cases.
    set (self := PacketFormat_init _ _ _ _) in *.
    destruct (Nat.ltb_spec (List.length packet) (size self)); [lia|].
    apply Z.eqb_neq in H. now rewrite H.
  - rewrite removelast_firstn_len, H. f_equal. lia.
  - rewrite <- H. destruct packet as [|b packet] using rev_ind.
    + cbn [List.length] in H. lia.
    + rewrite last_last, length_app, app_nth2; cbn [List.length]; [|lia].
      now replace (List.length packet + 1 - 1 - List.length packet) with 0
        by lia.
Qed.

(** C6: on a buffer of sufficient length whose checksum holds and whose
    decoded footer is not 0xFFFE, [parse] raises MalformedPacket with a
    message that contains the bytes of the whole buffer in hexadecimal. *)
Theorem bad_footer_message (v : variant) now packet :
  size (format_of v) <= List.length packet ->
  ~ checksum_fails (format_of v) packet ->
  decoded_footer (format_of v) packet <> 0xFFFE%Z ->
  exists msg,
    parse (format_of v) now packet = inl (MalformedPacketException msg)
    /\ msg
       = ("bad footer " ++ hex (decoded_footer (format_of v) packet)
          ++ " in packet: b'" ++ hexlify packet ++ "'")%string
    /\ contains msg (hexlify packet).
Proof.
  rewrite format_of_init. intros Hlen Hsum Hfoot.
  rewrite parse_cases. unfold checksum_fails in Hsum.
  set (self := PacketFormat_init _ _ _ _) in *.
  destruct (Nat.ltb_spec (List.length packet) (size self)); [lia|].
  destruct (Z.eqb_spec (wire.sum_octets (firstn (size self - 1) packet) mod 256)
              (octet (nth (size self - 1) packet x00))); [|contradiction].
  destruct (Z.eqb_spec (decoded_footer self packet) 0xFFFE); [contradiction|].
  eexists. split; [reflexivity|]. split; [reflexivity|].
  exists ("bad footer " ++ hex (decoded_footer self packet)
          ++ " in packet: b'")%string, "'"%string.
  unfold bytes_repr. now rewrite !append_assoc.
Qed.

End Parsing.

(** C3 as stated fails: the 380-byte buffer [samples.trailing] is long
    enough for BIN48-ABS (379 bytes) and passes the checksum validation,
    although the sum of all its bytes but the last, modulo 256, is 0 and
    its last byte is 1. *)
Lemma checksum_of_whole_buffer_counterexample :
  size 6 BIN48_ABS <= List.length samples.trailing
  /\ ~ ((exists msg,
           _checksum samples.trailing (size 6 BIN48_ABS)
           = inl (MalformedPacketException msg))
        <-> (wire.sum_octets (removelast samples.trailing) mod 256
             <> octet (last samples.trailing x00))%Z).
Proof.
  split; [vm_compute; lia|].
  intros [_ H].
  assert (Hne : (wire.sum_octets (removelast samples.trailing) mod 256
                 <> octet (last samples.trailing x00))%Z)
    by (vm_compute; discriminate).
  destruct (H Hne) as [msg Hmsg]. vm_compute in Hmsg. discriminate Hmsg.
Qed.

(** *** The round trip *)

Lemma layout_checksum_last n net ts :
  layout n net ts = removelast (layout n net ts) ++ [("checksum", ByteField)].
Proof. unfold layout. destruct net, ts, (Nat.eqb n 32); reflexivity. Qed.

Section RoundTrip.

Variable datetime : Type.
Variable DateTimeField_size : nat.
Variable DateTimeField_decode : list byte -> datetime.

Local Abbreviation size := (packets.size DateTimeField_size).
Local Abbreviation parse :=
  (packets.parse datetime DateTimeField_size DateTimeField_decode).
Local Abbreviation read_args :=
  (read_args datetime DateTimeField_size DateTimeField_decode).

(** The [args] of [parse] on an encoded reading. *)
Lemma read_args_encode name n net ts (r : wire.reading) :
  let self := PacketFormat_init name n net ts in
  let body := removelast (fields self) in
  wire.valid DateTimeField_size self r = true ->
  read_args self (wire.encode self r)
  = setitem "checksum"
      (VBytes datetime [wire.checksum_of (wire.encode_fields body r)])
      (set_decoded datetime DateTimeField_decode body r
         [("packet_format", VPacketFormat datetime self)])
  /\ List.length (wire.encode_fields body r) + 1 = size self.
Proof.
  intros self body Hvalid. unfold wire.valid in Hvalid. fold body in Hvalid.
  assert (Hfields : fields self = body ++ [("checksum", ByteField)]).
  { subst body self. rewrite fields_PacketFormat_init.
    apply layout_checksum_last. }
  split.
  - unfold packets_facts.read_args, wire.encode. fold body.
    rewrite Hfields, read_fields_app.
    change (wire.encode_fields body r ++ [wire.checksum_of (wire.encode_fields body r)])
      with ([] ++ wire.encode_fields body r
            ++ [wire.checksum_of (wire.encode_fields body r)]).
    rewrite (read_fields_encode_fields datetime DateTimeField_size
               DateTimeField_decode body r Hvalid [] _ _).
    cbn [read_fields fold_left fst Field_read app List.length Nat.add].
    do 2 f_equal.
    rewrite <- (app_nil_r [wire.checksum_of (wire.encode_fields body r)]) at 1.
    apply slice_app; cbn [List.length]; lia.
  - rewrite size_is_sum, Hfields.
    rewrite (length_encode_fields DateTimeField_size body r Hvalid).
    unfold values. rewrite !map_app, list_sum_app. reflexivity.
Qed.

Lemma parse_encode_init name n net ts now (r : wire.reading) :
  let self := PacketFormat_init name n net ts in
  wire.valid DateTimeField_size self r = true ->
  List.length (wire.encode self r) = size self
  /\ parse self now (wire.encode self r)
     = inr (wire.packet_of datetime DateTimeField_decode self net ts now r).
Proof.
  intros self Hvalid.
  destruct (read_args_encode name n net ts r Hvalid) as [Hargs Hlen].
  destruct (read_args_PacketFormat_init datetime DateTimeField_size
              DateTimeField_decode name n net ts now (wire.encode self r))
    as [Hfooter _].
  fold self in Hargs, Hlen, Hfooter.
  assert (Hfields : fields self = layout n net ts)
    by apply fields_PacketFormat_init.
  assert (Hsize : List.length (wire.encode self r) = size self).
  { unfold wire.encode. rewrite length_app. exact Hlen. }
  split; [exact Hsize|].
  subst self. rewrite parse_cases.
  set (self := PacketFormat_init name n net ts) in *.
  rewrite Hsize, Nat.ltb_irrefl.
  (* the checksum holds *)
  replace (size self - 1)
    with (List.length (wire.encode_fields (removelast (fields self)) r))
    by lia.
  unfold wire.encode at 1 2.
  rewrite firstn_app, firstn_all, Nat.sub_diag, app_nil_r.
  rewrite app_nth2, Nat.sub_diag by lia. cbn [firstn app nth].
  unfold wire.checksum_of at 1. rewrite octet_byte_of_Z, Z.eqb_refl.
  (* the footer and the packet *)
  rewrite Hargs in *. clear Hargs Hsize Hlen Hvalid.
  rewrite Hfields in *. clearbody self. unfold layout in *.
  destruct net, ts, (Nat.eqb n 32);
    cbn [removelast app set_decoded fold_left setitem getitem String.eqb
         Ascii.eqb Bool.eqb wire.decoded wire.value_of] in Hfooter |- *;
    injection Hfooter as <-; reflexivity.
Qed.

(** C1: for each of the five formats and every reading whose values fit
    the fields of the format, the buffer that holds the values in declared
    field order, the footer 0xFFFE and the checksum byte has the format's
    size, and [parse] returns the Packet that holds exactly those values. *)
Theorem parse_encode_round_trip (v : variant) now (r : wire.reading) :
  wire.valid DateTimeField_size (format_of v) r = true ->
  List.length (wire.encode (format_of v) r) = size (format_of v)
  /\ parse (format_of v) now (wire.encode (format_of v) r)
     = inr (wire.packet_of datetime DateTimeField_decode (format_of v)
              (net_metering_of v) (time_stamp_of v) now r).
Proof. rewrite format_of_init. apply parse_encode_init. Qed.

End RoundTrip.

(** *** The declared maxima of a parsed packet *)

Section Maxima.

Variable datetime : Type.
Variable DateTimeField_size : nat.
Variable DateTimeField_decode : list byte -> datetime.

Local Abbreviation parse :=
  (packets.parse datetime DateTimeField_size DateTimeField_decode).

(** A packet returned by [parse] refers to the format that parsed it. *)
Lemma parse_packet_format name n net ts now packet p :
  parse (PacketFormat_init name n net ts) now packet = inr p ->
  packet_format datetime p
  = VPacketFormat datetime (PacketFormat_init name n net ts).
Proof.
  rewrite parse_cases.
  destruct (read_args_PacketFormat_init datetime DateTimeField_size
              DateTimeField_decode name n net ts now packet)
    as [_ [p' [Hp' Hformat]]].
  rewrite Hp'.
  destruct (Nat.ltb _ _); [discriminate|].
  destruct (Z.eqb _ _); [|discriminate].
  destruct (Z.eqb _ _); [|discriminate].
  now intros [= <-].
Qed.

(** C9: a Packet that [parse] returns under any of the five formats has
    [max_seconds] and [max_pulse_count] equal to 2^24 - 1, the largest
    value of a 3-byte field, and [max_absolute_watt_seconds] equal to
    2^40 - 1, the largest value of a 5-byte field. *)
Theorem parsed_packet_maxima (v : variant) now packet p :
  parse (format_of v) now packet = inr p ->
  max_seconds datetime p = inr (2 ^ 24 - 1)%Z
  /\ max_pulse_count datetime p = inr (2 ^ 24 - 1)%Z
  /\ max_absolute_watt_seconds datetime p = inr (2 ^ 40 - 1)%Z.
Proof.
  rewrite format_of_init. intros H. apply parse_packet_format in H.
  unfold max_seconds, max_pulse_count, max_absolute_watt_seconds, format_field.
  rewrite H. destruct v; repeat split; reflexivity.
Qed.

(** C10: on a Packet that [parse] returns, [max_polarized_watt_seconds]
    is 2^40 - 1 under the net-metering formats, and under the
    absolute-only formats BIN48-ABS and BIN32-ABS it raises: the lookup of
    the field "polarized_watt_seconds" fails with KeyError. *)
Theorem max_polarized_watt_seconds_by_format (v : variant) now packet p :
  parse (format_of v) now packet = inr p ->
  max_polarized_watt_seconds datetime p
  = if net_metering_of v then inr (2 ^ 40 - 1)%Z
    else inl (KeyError "polarized_watt_seconds").
Proof.
  rewrite format_of_init. intros H. apply parse_packet_format in H.
  unfold max_polarized_watt_seconds, format_field.
  rewrite H. destruct v; reflexivity.
Qed.

End Maxima.

(** *** A buffer one byte short *)

Section ShortBuffer.

Variable datetime : Type.
Variable DateTimeField_size : nat.
Variable DateTimeField_decode : list byte -> datetime.

(** On a buffer of one byte less than the format's size, [parse] raises
    MalformedPacket with the message that gives both lengths. *)
Theorem parse_one_byte_short (v : variant) now packet :
  List.length packet = size DateTimeField_size (format_of v) - 1 ->
  parse datetime DateTimeField_size DateTimeField_decode (format_of v) now
    packet
  = inl (MalformedPacketException
           ("Packet too short. Expected "
            ++ str_of_nat (size DateTimeField_size (format_of v))
            ++ " bytes, found " ++ str_of_nat (List.length packet)
            ++ " bytes.")).
Proof.
  rewrite format_of_init. intros Hlen. rewrite parse_cases.
  pose proof (size_lower_bound DateTimeField_size (name_of v) (channels_of v)
                (net_metering_of v) (time_stamp_of v)) as Hsize.
  destruct (Nat.ltb_spec (List.length packet)
              (size DateTimeField_size
                 (PacketFormat_init (name_of v) (channels_of v)
                    (net_metering_of v) (time_stamp_of v))));
    [reflexivity | lia].
Qed.

End ShortBuffer.

(** *** The statements above on the sample data *)

Lemma checksum_validation_witness :
  size 6 BIN48_ABS <= List.length samples.trailing
  /\ _checksum samples.trailing (size 6 BIN48_ABS) = inr tt.
Proof.
  split; [vm_compute; lia|].
  apply (checksum_validation samples.datetime 6 samples.DateTimeField_decode
           Bin48Abs samples.trailing).
  - vm_compute; lia.
  - unfold checksum_fails. vm_compute. intros H; apply H; reflexivity.
Defined.

Lemma bad_footer_message_witness :
  exists msg,
    parse samples.datetime 6 samples.DateTimeField_decode BIN48_ABS
      samples.now samples.zeros
    = inl (MalformedPacketException msg)
    /\ contains msg (hexlify samples.zeros).
Proof.
  destruct (bad_footer_message samples.datetime 6 samples.DateTimeField_decode
              Bin48Abs samples.now samples.zeros)
    as [msg [Hparse [_ Hhex]]].
  - vm_compute; lia.
  - unfold checksum_fails. vm_compute. intros H; apply H; reflexivity.
  - vm_compute. discriminate.
  - exists msg. split; assumption.
Defined.

Lemma parse_encode_round_trip_witness :
  parse samples.datetime 6 samples.DateTimeField_decode BIN48_NET_TIME
    samples.now (wire.encode BIN48_NET_TIME samples.reading)
  = inr (wire.packet_of samples.datetime samples.DateTimeField_decode
           BIN48_NET_TIME true true samples.now samples.reading).
Proof.
  apply (parse_encode_round_trip samples.datetime 6
           samples.DateTimeField_decode Bin48NetTime samples.now
           samples.reading).
  vm_compute. reflexivity.
Defined.

Lemma parsed_packet_maxima_witness :
  parse samples.datetime 6 samples.DateTimeField_decode BIN48_ABS
    samples.now samples.minimal = inr samples.minimal_packet
  /\ max_seconds samples.datetime samples.minimal_packet = inr 16777215%Z
  /\ max_pulse_count samples.datetime samples.minimal_packet
     = inr 16777215%Z
  /\ max_absolute_watt_seconds samples.datetime samples.minimal_packet
     = inr 1099511627775%Z.
Proof.
  assert (Hparse :
            parse samples.datetime 6 samples.DateTimeField_decode BIN48_ABS
              samples.now samples.minimal = inr samples.minimal_packet)
    by (vm_compute; reflexivity).
  split; [exact Hparse|].
  exact (parsed_packet_maxima samples.datetime 6 samples.DateTimeField_decode
           Bin48Abs samples.now samples.minimal samples.minimal_packet Hparse).
Defined.

Lemma max_polarized_watt_seconds_witness :
  parse samples.datetime 6 samples.DateTimeField_decode BIN48_ABS
    samples.now samples.minimal = inr samples.minimal_packet
  /\ max_polarized_watt_seconds samples.datetime samples.minimal_packet
     = inl (KeyError "polarized_watt_seconds").
Proof.
  assert (Hparse :
            parse samples.datetime 6 samples.DateTimeField_decode BIN48_ABS
              samples.now samples.minimal = inr samples.minimal_packet)
    by (vm_compute; reflexivity).
  split; [exact Hparse|].
  exact (max_polarized_watt_seconds_by_format samples.datetime 6
           samples.DateTimeField_decode Bin48Abs samples.now samples.minimal
           samples.minimal_packet Hparse).
Defined.

Lemma parse_one_byte_short_witness :
  parse samples.datetime 6 samples.DateTimeField_decode BIN48_ABS samples.now
    (repeat x00 378)
  = inl (MalformedPacketException
           "Packet too short. Expected 379 bytes, found 378 bytes.").
Proof.
  apply (parse_one_byte_short samples.datetime 6 samples.DateTimeField_decode
           Bin48Abs samples.now (repeat x00 378)).
  reflexivity.
Defined.

End packets_facts.

(** ** Facts about api.py *)

Module api_facts.
Import api.

(** *** The trace of a transaction *)

Lemma end_calls_app (a b : list event) :
  end_calls (a ++ b) = end_calls a + end_calls b.
Proof. unfold end_calls. now rewrite filter_app, length_app. Qed.

(** A task that only adds events to the trace, none of them a call of
    [end_api_request]. *)
Definition adds_no_end {S A} (c : task S A) : Prop :=
  forall s trace,
  exists added,
    snd (snd (c (s, trace))) = trace ++ added /\ end_calls added = 0.

Section Transaction.

Context {S T R : Type}.
Variable interrupted : list event -> bool.
Variable api : ApiCall T R.
Variable protocol : BidirectionalProtocol S.

Local Abbreviation send := (api.send interrupted api protocol).
Local Abbreviation call_api := (api.call_api interrupted api protocol).

(** What one call of the yielded sender adds to the trace: nothing when
    the formatter raises, the request alone when [send_api_request]
    raises, and otherwise the request, then the suspension for the
    [seconds] attribute of the returned delay, then, unless the task is
    cancelled during the suspension, the receive. *)
Lemma send_trace (arg : T) (s : S) (trace : list event) :
  snd (snd (send arg (s, trace)))
  = trace
    ++ match _format_request api arg with
       | inl _ => []
       | inr request =>
           match fst (send_api_request protocol request s) with
           | inl _ => [SendApiRequest request]
           | inr delay =>
               [SendApiRequest request; Sleep (seconds delay)]
               ++ (if interrupted
                        (trace
                         ++ [SendApiRequest request; Sleep (seconds delay)])
                   then []
                   else [ReceiveApiResponse])
           end
       end.
Proof.
  unfold api.send, send_request, receive_response, bind, lift, invoke,
    asyncio_sleep.
  destruct (_format_request api arg) as [e|request]; cbn.
  - now rewrite app_nil_r.
  - destruct (send_api_request protocol request s) as [[e|delay] s1]; cbn.
    + reflexivity.
    + rewrite <- !app_assoc. cbn [app].
      destruct (interrupted _); cbn; [reflexivity|].
      destruct (receive_api_response protocol s1) as [[e|response] s2]; cbn.
      * now rewrite <- !app_assoc.
      * destruct (_parse_response api response); cbn;
          now rewrite <- !app_assoc.
Qed.

Lemma send_adds_no_end (arg : T) : adds_no_end (send arg).
Proof.
  intros s trace. rewrite send_trace. eexists. split; [reflexivity|].
  destruct (_format_request api arg) as [e|request]; [reflexivity|].
  destruct (fst (send_api_request protocol request s)); [reflexivity|].
  now destruct (interrupted _).
Qed.

Lemma run_block_adds_no_end {A} (body : block A) :
  adds_no_end (run_block send body).
Proof.
  induction body as [a|e|arg k IH]; intros s trace.
  - exists []. cbn. now rewrite app_nil_r.
  - exists []. cbn. now rewrite app_nil_r.
  - cbn [run_block].
    destruct (send_adds_no_end arg s trace) as [added1 [H1 E1]].
    destruct (send arg (s, trace)) as [r [s1 trace1]].
    cbn [snd] in H1. subst trace1.
    destruct (IH r s1 (trace ++ added1)) as [added2 [H2 E2]].
    exists (added1 ++ added2). rewrite H2, app_assoc. split; [reflexivity|].
    rewrite end_calls_app. lia.
Qed.

(** The trace of a transaction whose [begin_api_request] returned. *)
Lemma call_api_trace {A} (body : block A) s trace delay s1 :
  begin_api_request protocol s = (inr delay, s1) ->
  exists middle,
    snd (snd (call_api body (s, trace)))
    = trace ++ [BeginApiRequest; Sleep (seconds delay)] ++ middle
      ++ [EndApiRequest]
    /\ end_calls middle = 0.
Proof.
  intros Hbegin.
  unfold api.call_api, bind, try_finally, invoke, asyncio_sleep.
  rewrite Hbegin.
  destruct (interrupted ((trace ++ [BeginApiRequest])
                         ++ [Sleep (seconds delay)])).
  { exists []. split; [|reflexivity].
    destruct (end_api_request protocol s1) as [[e|u] s3]; cbn;
      now rewrite <- !app_assoc. }
  destruct (run_block_adds_no_end body s1
              ((trace ++ [BeginApiRequest]) ++ [Sleep (seconds delay)]))
    as [middle [Hmiddle Hend]].
  destruct (run_block send body
              (s1, (trace ++ [BeginApiRequest]) ++ [Sleep (seconds delay)]))
    as [r [s2 trace2]].
  cbn [snd] in Hmiddle. subst trace2.
  exists middle. split; [|exact Hend].
  destruct (end_api_request protocol s2) as [[e|u] s3]; cbn;
    now rewrite <- !app_assoc.
Qed.

(** A transaction whose [begin_api_request] raises stops there. *)
Lemma call_api_begin_raises {A} (body : block A) s trace e s1 :
  begin_api_request protocol s = (inl e, s1) ->
  call_api body (s, trace) = (inl e, (s1, trace ++ [BeginApiRequest])).
Proof.
  intros Hbegin. unfold api.call_api, bind, invoke. now rewrite Hbegin.
Qed.

(** C4, as the code has it: in every execution of a call_api transaction
    whose [begin_api_request] returned, [end_api_request] is invoked
    exactly once, as the last action, whatever the block does: whether it
    returns or raises, whether the yielded sender returns or raises, and
    whether or not the task is cancelled during a suspension. *)
Theorem end_api_request_exactly_once {A} (body : block A) s trace delay s1 :
  begin_api_request protocol s = (inr delay, s1) ->
  end_calls (snd (snd (call_api body (s, trace)))) = end_calls trace + 1
  /\ exists before,
      snd (snd (call_api body (s, trace))) = before ++ [EndApiRequest].
Proof.
  intros Hbegin.
  destruct (call_api_trace body s trace delay s1 Hbegin)
    as [middle [Htrace Hend]].
  rewrite Htrace. split.
  - rewrite !end_calls_app, Hend. reflexivity.
  - exists (trace ++ [BeginApiRequest; Sleep (seconds delay)] ++ middle).
    now rewrite <- !app_assoc.
Qed.

(** A call of the yielded sender whose formatter and [send_api_request]
    return, in a task that is not cancelled: it sends the formatted
    request, then suspends for the [seconds] attribute of the delay that
    [send_api_request] returned, and only then receives. *)
Theorem sender_order (arg : T) s trace request delay s1 :
  (forall trace, interrupted trace = false) ->
  _format_request api arg = inr request ->
  send_api_request protocol request s = (inr delay, s1) ->
  snd (snd (send arg (s, trace)))
  = trace ++ [SendApiRequest request; Sleep (seconds delay);
              ReceiveApiResponse].
Proof.
  intros Hloop Hformat Hsend.
  rewrite send_trace, Hformat, Hsend. cbn [fst]. now rewrite Hloop.
Qed.

End Transaction.

(** *** int() on decimal text *)

(** The number that the digits of [u] denote after the digits of [acc]. *)
Fixpoint uint_value (u : Decimal.uint) (acc : N) : N :=
  match u with
  | Decimal.Nil => acc
  | Decimal.D0 u => uint_value u (10 * acc)
  | Decimal.D1 u => uint_value u (10 * acc + 1)
  | Decimal.D2 u => uint_value u (10 * acc + 2)
  | Decimal.D3 u => uint_value u (10 * acc + 3)
  | Decimal.D4 u => uint_value u (10 * acc + 4)
  | Decimal.D5 u => uint_value u (10 * acc + 5)
  | Decimal.D6 u => uint_value u (10 * acc + 6)
  | Decimal.D7 u => uint_value u (10 * acc + 7)
  | Decimal.D8 u => uint_value u (10 * acc + 8)
  | Decimal.D9 u => uint_value u (10 * acc + 9)
  end%N.

Lemma uint_value_pos (u : Decimal.uint) (p : positive) :
  uint_value u (Npos p) = Npos (Pos.of_uint_acc u p).
Proof.
  revert p; induction u as [|u IH|u IH|u IH|u IH|u IH|u IH|u IH|u IH|u IH|u IH];
    intros p; cbn [uint_value Pos.of_uint_acc]; [reflexivity|..];
    rewrite <- IH; f_equal; lia.
Qed.

Lemma uint_value_0 (u : Decimal.uint) : uint_value u 0 = N.of_uint u.
Proof.
  unfold N.of_uint.
  induction u as [|u IH|u IH|u IH|u IH|u IH|u IH|u IH|u IH|u IH|u IH];
    cbn [uint_value Pos.of_uint]; [reflexivity | exact IH | ..];
    apply uint_value_pos.
Qed.

Lemma digits_string_of_uint (u : Decimal.uint) :
  forall acc count after_digit,
    u <> Decimal.Nil \/ after_digit = true ->
    digits (NilEmpty.string_of_uint u) acc count after_digit
    = Some (uint_value u acc, count + Decimal.nb_digits u).
Proof.
  induction u as [|u IH|u IH|u IH|u IH|u IH|u IH|u IH|u IH|u IH|u IH];
    intros acc count after_digit H.
  1: { destruct H as [H| ->]; [contradiction|]. cbn. now rewrite Nat.add_0_r. }
  all: cbn [NilEmpty.string_of_uint digits];
    match goal with
    | |- context [digit_of ?c] =>
        let d := eval vm_compute in (digit_of c) in
        change (digit_of c) with d
    end;
    cbv iota; rewrite IH by (right; reflexivity);
    cbn [uint_value Decimal.nb_digits];
    rewrite ?N.add_0_r, Nat.add_succ_r; reflexivity.
Qed.

Lemma lstrip_string_of_uint (u : Decimal.uint) :
  lstrip (NilEmpty.string_of_uint u) = NilEmpty.string_of_uint u.
Proof. destruct u; reflexivity. Qed.

Lemma rstrip_string_of_uint (u : Decimal.uint) :
  rstrip (NilEmpty.string_of_uint u) = NilEmpty.string_of_uint u.
Proof.
  induction u as [|u IH|u IH|u IH|u IH|u IH|u IH|u IH|u IH|u IH|u IH];
    cbn [NilEmpty.string_of_uint rstrip]; [reflexivity|..];
    rewrite IH; destruct (NilEmpty.string_of_uint u); reflexivity.
Qed.

(** [int] reads a non-empty text of decimal digits as the number it
    denotes, unless the text has more digits than the limit allows. *)
Lemma int_string_of_uint (max_str_digits : nat) (u : Decimal.uint) :
  u <> Decimal.Nil ->
  max_str_digits = 0 \/ Decimal.nb_digits u <= max_str_digits ->
  int max_str_digits (NilEmpty.string_of_uint u) = inr (Z.of_N (N.of_uint u)).
Proof.
  intros Hu Hlimit. unfold int.
  rewrite lstrip_string_of_uint, rstrip_string_of_uint.
  assert (Hsign :
            match NilEmpty.string_of_uint u with
            | String "-" rest => (true, rest)
            | String "+" rest => (false, rest)
            | other => (false, other)
            end = (false, NilEmpty.string_of_uint u))
    by (destruct u; reflexivity).
  rewrite Hsign, digits_string_of_uint by (left; exact Hu).
  rewrite uint_value_0. cbn [Nat.add].
  destruct (Nat.ltb_spec 0 max_str_digits) as [Hpos|Hzero];
    [|reflexivity].
  destruct (Nat.ltb_spec max_str_digits (Decimal.nb_digits u));
    [lia | reflexivity].
Qed.

(** *** GET_SERIAL_NUMBER *)

Section SerialNumber.

Variable CMD_GET_SERIAL_NUMBER : string.
Variable max_str_digits : nat.
Variable interrupted : list event -> bool.

Local Abbreviation GET_SERIAL_NUMBER :=
  (api.GET_SERIAL_NUMBER CMD_GET_SERIAL_NUMBER max_str_digits).
Local Abbreviation get_serial_number :=
  (api.get_serial_number CMD_GET_SERIAL_NUMBER max_str_digits interrupted).

(** C8: the formatter of GET_SERIAL_NUMBER returns the command literal
    whatever its argument is; its parser reads a text of decimal digits as
    the integer it denotes; and [get_serial_number], on a protocol whose
    methods return and whose [receive_api_response] returns "123456",
    returns 123456 when the task is not cancelled. The limit of the
    interpreter on the digits of [int()] is none, or 640 or more. *)
Theorem get_serial_number_returns_the_integer :
  max_str_digits = 0 \/ 640 <= max_str_digits ->
  (forall trace, interrupted trace = false) ->
  (forall (T : Type) (arg : T),
      GET_SERIAL_NUMBER_formatter CMD_GET_SERIAL_NUMBER arg
      = inr CMD_GET_SERIAL_NUMBER)
  /\ (forall arg : unit,
         _format_request GET_SERIAL_NUMBER arg = inr CMD_GET_SERIAL_NUMBER)
  /\ (forall u : Decimal.uint,
         u <> Decimal.Nil ->
         Decimal.nb_digits u <= 640 ->
         _parse_response GET_SERIAL_NUMBER (NilEmpty.string_of_uint u)
         = inr (Z.of_N (N.of_uint u)))
  /\ _parse_response GET_SERIAL_NUMBER "123456" = inr 123456%Z
  /\ (forall (S : Type) (protocol : BidirectionalProtocol S),
         (forall s, exists delay s',
               begin_api_request protocol s = (inr delay, s')) ->
         (forall request s, exists delay s',
               send_api_request protocol request s = (inr delay, s')) ->
         (forall s, exists s',
               receive_api_response protocol s = (inr "123456", s')) ->
         (forall s, exists s', end_api_request protocol s = (inr tt, s')) ->
         forall s trace,
           fst (get_serial_number protocol (s, trace)) = inr 123456%Z).
Proof.
  intros Hlimit Hloop.
  assert (Hparse : forall u : Decimal.uint,
             u <> Decimal.Nil ->
             Decimal.nb_digits u <= 640 ->
             int max_str_digits (NilEmpty.string_of_uint u)
             = inr (Z.of_N (N.of_uint u))).
  { intros u Hu Hdigits. apply int_string_of_uint; [exact Hu | lia]. }
  assert (H123456 : int max_str_digits "123456" = inr 123456%Z).
  { apply (Hparse
             (Decimal.D1 (Decimal.D2 (Decimal.D3 (Decimal.D4
                (Decimal.D5 (Decimal.D6 Decimal.Nil)))))));
      [discriminate | cbn; lia]. }
  repeat split; try reflexivity; try assumption.
  intros S protocol Hbegin Hsend Hreceive Hend s trace.
  destruct (Hbegin s) as [delay [s1 Hs1]].
  destruct (Hsend CMD_GET_SERIAL_NUMBER s1) as [delay' [s2 Hs2]].
  destruct (Hreceive s2) as [s3 Hs3].
  destruct (Hend s3) as [s4 Hs4].
  unfold api.get_serial_number, call_api, bind, try_finally, invoke,
    asyncio_sleep.
  rewrite Hs1, Hloop. cbn [run_block].
  unfold send, send_request, receive_response, bind, lift, invoke,
    asyncio_sleep.
  cbn [_format_request _parse_response api.GET_SERIAL_NUMBER
       GET_SERIAL_NUMBER_formatter GET_SERIAL_NUMBER_parser].
  rewrite Hs2. cbv beta iota zeta. rewrite Hloop.
  rewrite Hs3. cbv beta iota zeta.
  unfold GET_SERIAL_NUMBER_parser. rewrite H123456.
  cbn [run_block ret]. cbv beta iota zeta.
  rewrite Hs4. reflexivity.
Qed.

End SerialNumber.

(** *** The statements above on the sample data *)

(** C4 as stated fails: on a protocol object whose [begin_api_request]
    raises, [get_serial_number] leaves the call_api transaction by that
    exception and [end_api_request] is not invoked. *)
Lemma end_api_request_not_invoked_counterexample :
  get_serial_number samples.CMD_GET_SERIAL_NUMBER 4300 samples.undisturbed
    samples.refusing (tt, [])
  = (inl (Exception "not ready for an API request"), (tt, [BeginApiRequest]))
  /\ end_calls
       (snd (snd (get_serial_number samples.CMD_GET_SERIAL_NUMBER 4300
                    samples.undisturbed samples.refusing (tt, []))))
     <> 1.
Proof. split; [reflexivity | vm_compute; discriminate]. Qed.

Lemma end_api_request_exactly_once_witness :
  end_calls
    (snd (snd (call_api samples.undisturbed
                 (GET_SERIAL_NUMBER samples.CMD_GET_SERIAL_NUMBER 4300)
                 (samples.answering samples.three_seconds "123456")
                 (Await tt (fun _ => @Raise unit Z Z (Exception "fault")))
                 (tt, []))))
  = 0 + 1.
Proof.
  apply (end_api_request_exactly_once samples.undisturbed
           (GET_SERIAL_NUMBER samples.CMD_GET_SERIAL_NUMBER 4300)
           (samples.answering samples.three_seconds "123456")
           (Await tt (fun _ => @Raise unit Z Z (Exception "fault")))
           tt [] samples.three_seconds tt).
  reflexivity.
Defined.

(** A transaction cancelled during its first suspension still ends. *)
Example cancelled_transaction :
  get_serial_number samples.CMD_GET_SERIAL_NUMBER 4300 samples.cancelling
    (samples.answering samples.three_seconds "123456") (tt, [])
  = (inl CancelledError, (tt, [BeginApiRequest; Sleep 3; EndApiRequest])).
Proof. reflexivity. Qed.

(** A response that is not a number: the failure of the parser leaves
    the transaction, which ends. *)
Example malformed_response :
  get_serial_number samples.CMD_GET_SERIAL_NUMBER 4300 samples.undisturbed
    (samples.answering samples.three_seconds "12x456") (tt, [])
  = (inl (ValueError "invalid literal for int() with base 10"),
     (tt, [BeginApiRequest; Sleep 3;
           SendApiRequest samples.CMD_GET_SERIAL_NUMBER; Sleep 3;
           ReceiveApiResponse; EndApiRequest])).
Proof. reflexivity. Qed.

(** C5 on a delay of half a second: the transaction suspends for
    [delay.seconds], which is 0, after [begin_api_request] and after
    [send_api_request], and not for the 500000 microseconds returned. *)
Theorem call_api_sleeps_for_the_seconds_attribute :
  snd (snd (get_serial_number samples.CMD_GET_SERIAL_NUMBER 4300
              samples.undisturbed
              (samples.answering samples.half_a_second "123456") (tt, [])))
  = [BeginApiRequest; Sleep 0;
     SendApiRequest samples.CMD_GET_SERIAL_NUMBER; Sleep 0;
     ReceiveApiResponse; EndApiRequest]
  /\ total_microseconds samples.half_a_second = 500000%Z
  /\ (0 * 1000000 <> total_microseconds samples.half_a_second)%Z.
Proof. repeat split; try reflexivity. vm_compute. discriminate. Qed.

Lemma sender_order_witness :
  snd (snd (send samples.undisturbed
              (GET_SERIAL_NUMBER samples.CMD_GET_SERIAL_NUMBER 4300)
              (samples.answering samples.three_seconds "123456") tt
              (tt, [BeginApiRequest; Sleep 3])))
  = [BeginApiRequest; Sleep 3;
     SendApiRequest samples.CMD_GET_SERIAL_NUMBER; Sleep 3;
     ReceiveApiResponse].
Proof.
  apply (sender_order samples.undisturbed
           (GET_SERIAL_NUMBER samples.CMD_GET_SERIAL_NUMBER 4300)
           (samples.answering samples.three_seconds "123456") tt tt
           [BeginApiRequest; Sleep 3] samples.CMD_GET_SERIAL_NUMBER
           samples.three_seconds tt);
    reflexivity.
Defined.

Lemma get_serial_number_witness :
  fst (get_serial_number samples.CMD_GET_SERIAL_NUMBER 4300
         samples.undisturbed
         (samples.answering samples.three_seconds "123456") (tt, []))
  = inr 123456%Z.
Proof.
  apply (get_serial_number_returns_the_integer
           samples.CMD_GET_SERIAL_NUMBER 4300 samples.undisturbed);
    [right; lia | reflexivity | ..]; intros; repeat eexists.
Defined.

End api_facts.

(** ** More about packets.py: what a parsed packet holds *)

Module packets_more.
Import packets.
Import packets_facts.

Section Layout.

Variable datetime : Type.
Variable DateTimeField_size : nat.
Variable DateTimeField_decode : list byte -> datetime.

Local Abbreviation size := (packets.size DateTimeField_size).
Local Abbreviation parse :=
  (packets.parse datetime DateTimeField_size DateTimeField_decode).
Local Abbreviation read :=
  (Field_read datetime DateTimeField_size DateTimeField_decode).

(** The offset of the serial number: it follows the header, the voltage
    and the one or two arrays of watt-second counters. *)
Definition serial_number_offset (n : nat) (net : bool) : nat :=
  3 + 2 + n * 5 + (if net then n * 5 else 0).

(** The offset of the time stamp, where the format has one: after the
    temperatures and the spare bytes of a 32-channel format. *)
Definition time_stamp_offset (n : nat) (net : bool) : nat :=
  serial_number_offset n net + 2 + 1 + 1 + n * 2 + 3 + 4 * 3 + 8 * 2
  + (if Nat.eqb n 32 then 2 else 0).

(** The Packet whose attributes are the fields of [packet] read at their
    offsets in a format built with [n] channels and the two flags. *)
Definition packet_at (self : PacketFormat) (n : nat) (net ts : bool)
    (now : datetime) (packet : list byte) : Packet datetime :=
  let a := serial_number_offset n net in
  {| packet_format := VPacketFormat datetime self;
     voltage := read (FloatingPointField 2 hi_to_lo 10) packet 3;
     absolute_watt_seconds := read (NumericArrayField n 5 lo_to_hi) packet 5;
     polarized_watt_seconds :=
       if net
       then Some (read (NumericArrayField n 5 lo_to_hi) packet (5 + n * 5))
       else None;
     currents :=
       Some (read (FloatingPointArrayField n 2 lo_to_hi 50) packet (a + 4));
     device_id := read (NumericField 1 hi_to_lo) packet (a + 3);
     serial_number := read (NumericField 2 hi_to_lo) packet a;
     seconds := read (NumericField 3 lo_to_hi) packet (a + 4 + n * 2);
     pulse_counts :=
       read (NumericArrayField 4 3 lo_to_hi) packet (a + 7 + n * 2);
     temperatures :=
       read (FloatingPointArrayField 8 2 lo_to_hi_signed 2) packet
         (a + 19 + n * 2);
     time_stamp :=
       if ts then read DateTimeField packet (time_stamp_offset n net)
       else VDateTime datetime now |}.

(** Two reads of one field that differ in how the offset is written. *)
Ltac same_read :=
  match goal with
  | |- Some _ = Some _ => apply f_equal; same_read
  | |- Field_read _ _ _ ?f ?p _ = Field_read _ _ _ ?f ?p _ =>
      apply (f_equal (Field_read _ _ _ f p)); lia
  | |- _ => reflexivity
  end.

Lemma Packet_init_read_args name n net ts now packet :
  let self := PacketFormat_init name n net ts in
  Packet_init datetime now
    (read_args datetime DateTimeField_size DateTimeField_decode self packet)
  = inr (packet_at self n net ts now packet).
Proof.
  intros self. unfold read_args, packet_at, time_stamp_offset,
    serial_number_offset.
  assert (Hfields : fields self = layout n net ts)
    by apply fields_PacketFormat_init.
  rewrite Hfields. clearbody self. unfold layout.
  assert (Htruthy : forall offset,
             truthy datetime (read DateTimeField packet offset) = true)
    by reflexivity.
  destruct net, ts, (Nat.eqb n 32);
    cbn [app read_fields fold_left setitem String.eqb Ascii.eqb Bool.eqb
         getitem fst Packet_init Field_size];
    rewrite ?Htruthy; apply f_equal; f_equal; same_read.
Qed.

(** When [parse] returns a Packet, and which. *)
Lemma parse_inr_iff name n net ts now packet p :
  let self := PacketFormat_init name n net ts in
  parse self now packet = inr p
  <-> size self <= List.length packet
      /\ ~ checksum_fails DateTimeField_size self packet
      /\ decoded_footer DateTimeField_size self packet = 0xFFFE%Z
      /\ p = packet_at self n net ts now packet.
Proof.
  intros self. subst self. rewrite parse_cases, Packet_init_read_args.
  unfold checksum_fails.
  set (self := PacketFormat_init name n net ts).
  destruct (Nat.ltb_spec (List.length packet) (size self)) as [Hlen|Hlen].
  { split; [discriminate | intros [H _]; lia]. }
  destruct (Z.eqb_spec (wire.sum_octets (firstn (size self - 1) packet) mod 256)
              (octet (nth (size self - 1) packet x00))) as [Hsum|Hsum].
  2: { split; [discriminate | intros [_ [H _]]; contradiction]. }
  destruct (Z.eqb_spec (decoded_footer DateTimeField_size self packet) 0xFFFE)
    as [Hfoot|Hfoot].
  2: { split; [discriminate | intros [_ [_ [H _]]]; contradiction]. }
  split.
  - intros [= <-]. repeat split; auto.
  - intros [_ [_ [_ ->]]]. reflexivity.
Qed.

(** The Packet that [parse] returns under any of the five formats holds
    the fields of the buffer read at their offsets: the voltage at byte
    3, the absolute counters from byte 5, the polarized counters (in a
    net-metering format) after them, then the serial number, one reserved
    byte, the device id, the currents, the seconds, the pulse counts and
    the temperatures; its time stamp is the decoded field of a format
    that has one and the time of the call otherwise. *)
Theorem parsed_packet_layout (v : variant) now packet p :
  parse (format_of v) now packet = inr p ->
  p = packet_at (format_of v) (channels_of v) (net_metering_of v)
        (time_stamp_of v) now packet.
Proof.
  rewrite format_of_init. intros H. apply parse_inr_iff in H.
  now destruct H as [_ [_ [_ H]]].
Qed.

(** The [type] and [num_channels] of a Packet that [parse] returns are
    the name and the channel count its format was built with. *)
Theorem parsed_packet_type_and_channels name n net ts now packet p :
  parse (PacketFormat_init name n net ts) now packet = inr p ->
  type datetime p = inr name /\ Packet_num_channels datetime p = inr n.
Proof.
  intros H. apply parse_inr_iff in H. destruct H as [_ [_ [_ ->]]].
  split; reflexivity.
Qed.

End Layout.

(** *** Bytes after the packet *)

Lemma slice_app_l {A} (a b : list A) (start stop : nat) :
  stop <= List.length a ->
  slice (a ++ b) start stop = slice a start stop.
Proof.
  intros Hstop. unfold slice.
  rewrite skipn_app, firstn_app, length_skipn.
  replace (stop - start - (List.length a - start)) with 0 by lia.
  cbn [firstn]. apply app_nil_r.
Qed.

Section Trailing.

Variable datetime : Type.
Variable DateTimeField_size : nat.
Variable DateTimeField_decode : list byte -> datetime.

Local Abbreviation size := (packets.size DateTimeField_size).
Local Abbreviation parse :=
  (packets.parse datetime DateTimeField_size DateTimeField_decode).
Local Abbreviation read :=
  (Field_read datetime DateTimeField_size DateTimeField_decode).
Local Abbreviation width := (Field_size DateTimeField_size).

(** A field that lies within the first bytes of a buffer is read from
    them alone. *)
Lemma Field_read_app (field : Field) (a b : list byte) (offset : nat) :
  offset + width field <= List.length a ->
  read field (a ++ b) offset = read field a offset.
Proof.
  destruct field; cbn [Field_size Field_read]; intros H;
    rewrite ?slice_app_l by lia; try reflexivity.
  all: f_equal; apply map_ext_in; intros i Hi; apply in_seq in Hi;
    rewrite slice_app_l by nia; reflexivity.
Qed.

Lemma read_fields_prefix (items : dict Field) (a b : list byte) :
  forall args offset,
    offset + list_sum (map width (values items)) <= List.length a ->
    read_fields datetime DateTimeField_size DateTimeField_decode items
      (a ++ b) (args, offset)
    = read_fields datetime DateTimeField_size DateTimeField_decode items a
        (args, offset).
Proof.
  induction items as [|[key field] items IH]; intros args offset H;
    [reflexivity|].
  unfold values, list_sum in *. cbn [map fold_right snd] in H.
  cbn [read_fields fold_left].
  rewrite Field_read_app by lia.
  apply IH. lia.
Qed.

Lemma parse_app_init name n net ts now packet extra p :
  let self := PacketFormat_init name n net ts in
  size self <= List.length packet ->
  (parse self now (packet ++ extra) = inr p <-> parse self now packet = inr p).
Proof.
  intros self Hlen.
  pose proof (size_lower_bound DateTimeField_size name n net ts) as Hsize.
  fold self in Hsize.
  subst self. rewrite !parse_cases.
  set (self := PacketFormat_init name n net ts) in *.
  assert (Hargs :
            read_args datetime DateTimeField_size DateTimeField_decode self
              (packet ++ extra)
            = read_args datetime DateTimeField_size DateTimeField_decode self
                packet).
  { unfold read_args. rewrite read_fields_prefix; [reflexivity|].
    rewrite <- size_is_sum. cbn [Nat.add]. exact Hlen. }
  assert (Hfooter :
            decoded_footer DateTimeField_size self (packet ++ extra)
            = decoded_footer DateTimeField_size self packet).
  { unfold decoded_footer. rewrite slice_app_l by lia. reflexivity. }
  rewrite Hargs, Hfooter, length_app.
  rewrite firstn_app, app_nth1 by lia.
  replace (size self - 1 - List.length packet) with 0 by lia.
  cbn [firstn]. rewrite app_nil_r.
  destruct (Nat.ltb_spec (List.length packet + List.length extra) (size self));
    [lia|].
  destruct (Nat.ltb_spec (List.length packet) (size self)); [lia|].
  destruct (Z.eqb _ _); [|split; discriminate].
  destruct (Z.eqb _ _); [reflexivity | split; discriminate].
Qed.

(** For each of the five formats, bytes that follow a packet in the
    buffer change nothing to the Packet that [parse] returns: on a buffer
    of at least the format's size, [parse] returns a Packet with the
    following bytes exactly when it returns it without them. *)
Theorem parse_ignores_following_bytes (v : variant) now packet extra p :
  size (format_of v) <= List.length packet ->
  (parse (format_of v) now (packet ++ extra) = inr p
   <-> parse (format_of v) now packet = inr p).
Proof. rewrite format_of_init. apply parse_app_init. Qed.

End Trailing.

(** *** The checksum as an error check *)

(** [_checksum] on a buffer shorter than [size]: the read of
    [packet[size - 1]] is out of range. *)
Theorem checksum_of_short_buffer (packet : list byte) (size : nat) :
  0 < size ->
  List.length packet < size ->
  _checksum packet size = inl IndexError.
Proof.
  intros Hsize Hlen. unfold _checksum, index.
  destruct (Z.ltb_spec (Z.of_nat size - 1) 0) as [Hneg|_]; [lia|].
  replace (Z.to_nat (Z.of_nat size - 1)) with (size - 1) by lia.
  assert (Hnone : nth_error packet (size - 1) = None)
    by (apply nth_error_None; lia).
  now rewrite Hnone.
Qed.

Lemma octet_inj (b b' : byte) : octet b = octet b' -> b = b'.
Proof.
  unfold octet. intros H. apply N2Z.inj in H.
  assert (Hsome : Some b = Some b')
    by (rewrite <- (Byte.of_to_N b), <- (Byte.of_to_N b'); now rewrite H).
  now injection Hsome.
Qed.

Lemma sum_octets_app (a b : list byte) :
  wire.sum_octets (a ++ b) = (wire.sum_octets a + wire.sum_octets b)%Z.
Proof.
  unfold wire.sum_octets. induction a as [|x a IH]; cbn; [reflexivity|].
  rewrite IH. lia.
Qed.

(** A buffer that passes [_checksum] fails it after the change of any one
    of its first [size] bytes. *)
Lemma checksum_detects_one_byte (pre post : list byte) (b b' : byte)
    (size : nat) :
  List.length pre < size <= List.length (pre ++ b :: post) ->
  b <> b' ->
  _checksum (pre ++ b :: post) size = inr tt ->
  _checksum (pre ++ b' :: post) size
  = inl (bad_checksum (pre ++ b' :: post) size).
Proof.
  intros [Hpre Hlen] Hne.
  assert (Hlen' : size <= List.length (pre ++ b' :: post))
    by (rewrite length_app in *; exact Hlen).
  rewrite !checksum_cases by lia.
  assert (Hoctet : octet b <> octet b')
    by (intros H; apply Hne, octet_inj, H).
  pose proof (octet_range b) as Hb. pose proof (octet_range b') as Hb'.
  rewrite !firstn_app, !(firstn_all2 (n := size - 1) pre) by lia.
  rewrite !app_nth2 by lia.
  destruct (size - 1 - List.length pre) as [|k] eqn:Hk.
  - cbn [firstn nth]. rewrite !app_nil_r.
    destruct (Z.eqb_spec (wire.sum_octets pre mod 256) (octet b)) as [H|H];
      [|discriminate].
    intros _.
    destruct (Z.eqb_spec (wire.sum_octets pre mod 256) (octet b')) as [H'|H'];
      [congruence | reflexivity].
  - cbn [firstn nth]. rewrite !sum_octets_app.
    change (wire.sum_octets (b :: firstn k post))
      with (octet b + wire.sum_octets (firstn k post))%Z.
    change (wire.sum_octets (b' :: firstn k post))
      with (octet b' + wire.sum_octets (firstn k post))%Z.
    set (before := wire.sum_octets pre).
    set (after := wire.sum_octets (firstn k post)).
    set (stored := octet (nth k post x00)).
    destruct (Z.eqb_spec ((before + (octet b + after)) mod 256) stored)
      as [H|H]; [|discriminate].
    intros _.
    destruct (Z.eqb_spec ((before + (octet b' + after)) mod 256) stored)
      as [H'|H']; [|reflexivity].
    exfalso.
    pose proof (Z.div_mod (before + (octet b + after)) 256 ltac:(lia)).
    pose proof (Z.div_mod (before + (octet b' + after)) 256 ltac:(lia)).
    lia.
Qed.

Section Corruption.

Variable datetime : Type.
Variable DateTimeField_size : nat.
Variable DateTimeField_decode : list byte -> datetime.

Local Abbreviation size := (packets.size DateTimeField_size).
Local Abbreviation parse :=
  (packets.parse datetime DateTimeField_size DateTimeField_decode).

(** For each of the five formats: when [parse] returns a Packet on a
    buffer, it raises MalformedPacket for the checksum on the buffer with
    any one byte of the packet (one of its first [size] bytes, the
    checksum byte included) changed. *)
Theorem parse_detects_one_changed_byte (v : variant) now
    (pre post : list byte) (b b' : byte) p :
  List.length pre < size (format_of v) ->
  b <> b' ->
  parse (format_of v) now (pre ++ b :: post) = inr p ->
  parse (format_of v) now (pre ++ b' :: post)
  = inl (bad_checksum (pre ++ b' :: post) (size (format_of v))).
Proof.
  rewrite format_of_init. intros Hpre Hne Hparse.
  pose proof (size_lower_bound DateTimeField_size (name_of v) (channels_of v)
                (net_metering_of v) (time_stamp_of v)) as Hsize.
  rewrite parse_cases in *.
  set (self := PacketFormat_init _ _ _ _) in *.
  assert (Hlen : size self <= List.length (pre ++ b :: post)).
  { apply Nat.nlt_ge. intros Hlt. apply Nat.ltb_lt in Hlt.
    rewrite Hlt in Hparse. discriminate Hparse. }
  assert (Hlen' : size self <= List.length (pre ++ b' :: post))
    by (rewrite length_app in *; exact Hlen).
  assert (Hok : _checksum (pre ++ b :: post) (size self) = inr tt).
  { rewrite checksum_cases by lia.
    apply Nat.ltb_ge in Hlen. rewrite Hlen in Hparse.
    apply Nat.ltb_ge in Hlen. revert Hparse.
    destruct (Z.eqb _ _); [reflexivity | intros Hparse; discriminate Hparse]. }
  destruct (Nat.ltb_spec (List.length (pre ++ b' :: post)) (size self));
    [lia|].
  pose proof (checksum_detects_one_byte pre post b b' (size self)
                (conj Hpre Hlen) Hne Hok) as Hbad.
  rewrite checksum_cases in Hbad by lia. clear Hparse Hok. revert Hbad.
  destruct (Z.eqb _ _); [intros Hbad; discriminate Hbad | reflexivity].
Qed.

End Corruption.

(** *** The counters of a parsed packet and their maxima *)

Lemma length_slice_le {A} (buffer : list A) (start stop : nat) :
  List.length (slice buffer start stop) <= stop - start.
Proof. unfold slice. apply firstn_le_length. Qed.

(** An unsigned read of at most [width] bytes is below [2 ^ (8 * width)]. *)
Lemma unsigned_range (fn : order_fn) (octets : list byte) (width : nat) :
  fn <> lo_to_hi_signed ->
  List.length octets <= width ->
  (0 <= order_fn_call fn octets <= 2 ^ (8 * Z.of_nat width) - 1)%Z.
Proof.
  intros Hfn Hlen.
  assert (Hpow : (2 ^ (8 * Z.of_nat (List.length octets))
                  <= 2 ^ (8 * Z.of_nat width))%Z)
    by (apply Z.pow_le_mono_r; lia).
  destruct fn; cbn [order_fn_call]; [| |contradiction].
  - pose proof (little_endian_range (rev octets)) as H.
    rewrite length_rev in H. lia.
  - pose proof (little_endian_range octets) as H. lia.
Qed.

Section Counters.

Variable datetime : Type.
Variable DateTimeField_size : nat.
Variable DateTimeField_decode : list byte -> datetime.

Local Abbreviation parse :=
  (packets.parse datetime DateTimeField_size DateTimeField_decode).
Local Abbreviation read :=
  (Field_read datetime DateTimeField_size DateTimeField_decode).

Lemma read_NumericField (width : nat) (fn : order_fn) packet offset :
  fn <> lo_to_hi_signed ->
  exists n,
    read (NumericField width fn) packet offset = VInt datetime n
    /\ (0 <= n <= 2 ^ (8 * Z.of_nat width) - 1)%Z.
Proof.
  intros Hfn. eexists. split; [reflexivity|].
  apply unsigned_range; [assumption|].
  pose proof (length_slice_le packet offset (offset + width)). lia.
Qed.

Lemma read_NumericArrayField (count width : nat) (fn : order_fn) packet offset :
  fn <> lo_to_hi_signed ->
  exists l,
    read (NumericArrayField count width fn) packet offset
    = VList datetime (map (VInt datetime) l)
    /\ List.length l = count
    /\ Forall (fun n => 0 <= n <= 2 ^ (8 * Z.of_nat width) - 1)%Z l.
Proof.
  intros Hfn.
  exists (map (fun i =>
                 order_fn_call fn
                   (slice packet (offset + i * width)
                      (offset + i * width + width)))
            (seq 0 count)).
  split; [|split].
  - cbn [Field_read]. now rewrite map_map.
  - now rewrite length_map, length_seq.
  - apply Forall_map, Forall_forall. intros i _.
    apply unsigned_range; [assumption|].
    pose proof (length_slice_le packet (offset + i * width)
                  (offset + i * width + width)).
    lia.
Qed.

Lemma read_FloatingPointArrayField (count width : nat) (fn : order_fn)
    (divisor : float) packet offset :
  exists l,
    read (FloatingPointArrayField count width fn divisor) packet offset
    = VList datetime (map (VFloat datetime) l)
    /\ List.length l = count.
Proof.
  eexists. split.
  - cbn [Field_read].
    rewrite <- (map_map _ (VFloat datetime)). reflexivity.
  - now rewrite length_map, length_seq.
Qed.

(** In a Packet that [parse] returns under any of the five formats, the
    seconds counter and the four pulse counts are integers from 0 to
    [max_seconds] and [max_pulse_count], the absolute watt-second
    counters, one per channel, are integers from 0 to
    [max_absolute_watt_seconds], and so are the polarized counters of a
    net-metering format; the serial number is below 2^16 and the device
    id below 2^8. *)
Theorem parsed_counters_within_maxima (v : variant) now packet p :
  parse (format_of v) now packet = inr p ->
  (exists n m,
      seconds datetime p = VInt datetime n
      /\ max_seconds datetime p = inr m /\ (0 <= n <= m)%Z)
  /\ (exists l m,
         pulse_counts datetime p = VList datetime (map (VInt datetime) l)
         /\ List.length l = 4
         /\ max_pulse_count datetime p = inr m
         /\ Forall (fun n => 0 <= n <= m)%Z l)
  /\ (exists l m,
         absolute_watt_seconds datetime p
         = VList datetime (map (VInt datetime) l)
         /\ List.length l = channels_of v
         /\ max_absolute_watt_seconds datetime p = inr m
         /\ Forall (fun n => 0 <= n <= m)%Z l)
  /\ (net_metering_of v = true ->
      exists l m,
        polarized_watt_seconds datetime p
        = Some (VList datetime (map (VInt datetime) l))
        /\ List.length l = channels_of v
        /\ max_polarized_watt_seconds datetime p = inr m
        /\ Forall (fun n => 0 <= n <= m)%Z l)
  /\ (exists n,
         serial_number datetime p = VInt datetime n /\ (0 <= n < 2 ^ 16)%Z)
  /\ (exists n,
         device_id datetime p = VInt datetime n /\ (0 <= n < 2 ^ 8)%Z).
Proof.
  rewrite format_of_init. intros H.
  apply parse_inr_iff in H. destruct H as [_ [_ [_ ->]]].
  set (self := PacketFormat_init _ _ _ _).
  assert (Hlo : lo_to_hi <> lo_to_hi_signed) by discriminate.
  assert (Hhi : hi_to_lo <> lo_to_hi_signed) by discriminate.
  assert (Hmax : forall key count width fn,
             getitem key (fields self)
             = Some (NumericArrayField count width fn) ->
             match
               match getitem key (fields self) with
               | Some field => inr field
               | None => inl (KeyError key)
               end
             with
             | inr field => numeric_array_elem_max field
             | inl e => inl e
             end = inr (2 ^ (8 * Z.of_nat width) - 1)%Z)
    by (intros key count width fn ->; reflexivity).
  unfold max_seconds, max_pulse_count, max_absolute_watt_seconds,
    max_polarized_watt_seconds, format_field, packet_at.
  cbn [packet_format seconds pulse_counts absolute_watt_seconds
       polarized_watt_seconds serial_number device_id].
  repeat split.
  - destruct (read_NumericField 3 lo_to_hi packet
                (serial_number_offset (channels_of v) (net_metering_of v)
                 + 4 + channels_of v * 2) Hlo) as [n [Hn Hrange]].
    exists n, (2 ^ 24 - 1)%Z. repeat split; try assumption; try lia.
    destruct v; reflexivity.
  - destruct (read_NumericArrayField 4 3 lo_to_hi packet
                (serial_number_offset (channels_of v) (net_metering_of v)
                 + 7 + channels_of v * 2) Hlo) as [l [Hl [Hlen Hrange]]].
    exists l, (2 ^ (8 * Z.of_nat 3) - 1)%Z. repeat split; try assumption.
    apply (Hmax "pulse_counts" 4 3 lo_to_hi). destruct v; reflexivity.
  - destruct (read_NumericArrayField (channels_of v) 5 lo_to_hi packet 5 Hlo)
      as [l [Hl [Hlen Hrange]]].
    exists l, (2 ^ (8 * Z.of_nat 5) - 1)%Z. repeat split; try assumption.
    apply (Hmax "absolute_watt_seconds" (channels_of v) 5 lo_to_hi).
    destruct v; reflexivity.
  - intros Hnet. rewrite Hnet.
    destruct (read_NumericArrayField (channels_of v) 5 lo_to_hi packet
                (5 + channels_of v * 5) Hlo) as [l [Hl [Hlen Hrange]]].
    exists l, (2 ^ (8 * Z.of_nat 5) - 1)%Z.
    split; [now rewrite Hl|]. repeat split; try assumption.
    apply (Hmax "polarized_watt_seconds" (channels_of v) 5 lo_to_hi).
    destruct v; try discriminate Hnet; reflexivity.
  - destruct (read_NumericField 2 hi_to_lo packet
                (serial_number_offset (channels_of v) (net_metering_of v)) Hhi)
      as [n [Hn Hrange]].
    exists n. split; [assumption|]. change (2 ^ 16)%Z with 65536%Z.
    change (2 ^ (8 * Z.of_nat 2) - 1)%Z with 65535%Z in Hrange. lia.
  - destruct (read_NumericField 1 hi_to_lo packet
                (serial_number_offset (channels_of v) (net_metering_of v) + 3)
                Hhi) as [n [Hn Hrange]].
    exists n. split; [assumption|]. change (2 ^ 8)%Z with 256%Z.
    change (2 ^ (8 * Z.of_nat 1) - 1)%Z with 255%Z in Hrange. lia.
Qed.

(** The attributes of a Packet that [parse] returns under any of the five
    formats: the voltage is a float, the currents are given (never
    [None]) as one float per channel, the temperatures are eight floats,
    the polarized counters are [None] exactly under the absolute-only
    formats, and the time stamp is a date and time, the time of the call
    when the format carries none. *)
Theorem parsed_packet_attributes (v : variant) now packet p :
  parse (format_of v) now packet = inr p ->
  (exists x, voltage datetime p = VFloat datetime x)
  /\ (exists l,
         currents datetime p = Some (VList datetime (map (VFloat datetime) l))
         /\ List.length l = channels_of v)
  /\ (exists l,
         temperatures datetime p = VList datetime (map (VFloat datetime) l)
         /\ List.length l = 8)
  /\ (polarized_watt_seconds datetime p = None
      <-> net_metering_of v = false)
  /\ (exists t, time_stamp datetime p = VDateTime datetime t)
  /\ (time_stamp_of v = false -> time_stamp datetime p = VDateTime datetime now).
Proof.
  rewrite format_of_init. intros H.
  apply parse_inr_iff in H. destruct H as [_ [_ [_ ->]]].
  unfold packet_at.
  cbn [voltage currents temperatures polarized_watt_seconds time_stamp].
  repeat split.
  - eexists. reflexivity.
  - destruct (read_FloatingPointArrayField (channels_of v) 2 lo_to_hi 50 packet
                (serial_number_offset (channels_of v) (net_metering_of v) + 4))
      as [l [Hl Hlen]].
    exists l. now rewrite Hl.
  - apply read_FloatingPointArrayField.
  - destruct (net_metering_of v); [discriminate | reflexivity].
  - intros ->. reflexivity.
  - destruct (time_stamp_of v); eexists; reflexivity.
  - intros ->. reflexivity.
Qed.

End Counters.

(** *** The fields that PacketFormat.__init__ declares *)

(** Whatever the name, the channel count and the two flags: the field
    names of a format are pairwise distinct, so that no assignment of
    [__init__] replaces a field and no read of [parse] overwrites
    another; the first field is the header, and the last two are the
    2-byte footer and the 1-byte checksum. *)
Theorem PacketFormat_init_fields name n net ts :
  NoDup (map fst (fields (PacketFormat_init name n net ts)))
  /\ nth_error (fields (PacketFormat_init name n net ts)) 0
     = Some ("header", NumericField 3 hi_to_lo)
  /\ (exists body,
         fields (PacketFormat_init name n net ts)
         = body ++ [("footer", NumericField 2 hi_to_lo);
                    ("checksum", ByteField)])
  /\ List.length (fields (PacketFormat_init name n net ts))
     = 12 + (if net then 1 else 0) + (if Nat.eqb n 32 then 1 else 0)
       + (if ts then 1 else 0).
Proof.
  rewrite fields_PacketFormat_init. unfold layout.
  destruct net, ts, (Nat.eqb n 32);
    (split;
     [ cbn [map fst app];
       match goal with
       | |- NoDup ?l =>
           assert (Hnodup : nodup string_dec l = l) by (vm_compute; reflexivity);
           rewrite <- Hnodup; apply NoDup_nodup
       end
     | split; [reflexivity|]; split; [|reflexivity];
       cbn [app];
       match goal with
       | |- exists body, ?l = _ =>
           exists (removelast (removelast l)); reflexivity
       end ]).
Qed.

(** The size of a format built with [n] channels: 43 bytes that every
    format has, 7 bytes per channel, or 12 with net metering, 2 spare
    bytes when [n] is 32, and the time stamp when the format has one. *)
Theorem size_of_built_format (DateTimeField_size : nat) name n net ts :
  size DateTimeField_size (PacketFormat_init name n net ts)
  = 43 + n * (if net then 12 else 7) + (if Nat.eqb n 32 then 2 else 0)
    + (if ts then DateTimeField_size else 0).
Proof.
  rewrite size_PacketFormat_init. destruct net, ts, (Nat.eqb n 32); lia.
Qed.

(** *** The statements above on the sample data *)

(** [samples.minimal] after its first byte. *)
Definition minimal_tail : list byte := repeat x00 375 ++ [xff; xfe; xfd].

Lemma parse_minimal :
  parse samples.datetime 6 samples.DateTimeField_decode BIN48_ABS samples.now
    samples.minimal
  = inr samples.minimal_packet.
Proof. vm_compute. reflexivity. Qed.

Lemma parsed_packet_layout_witness :
  samples.minimal_packet
  = packet_at samples.datetime 6 samples.DateTimeField_decode BIN48_ABS 48
      false false samples.now samples.minimal.
Proof.
  exact (parsed_packet_layout samples.datetime 6 samples.DateTimeField_decode
           Bin48Abs samples.now samples.minimal samples.minimal_packet
           parse_minimal).
Defined.

Lemma parsed_packet_type_and_channels_witness :
  type samples.datetime samples.minimal_packet = inr "BIN48-ABS"
  /\ Packet_num_channels samples.datetime samples.minimal_packet = inr 48.
Proof.
  exact (parsed_packet_type_and_channels samples.datetime 6
           samples.DateTimeField_decode "BIN48-ABS" 48 false false samples.now
           samples.minimal samples.minimal_packet parse_minimal).
Defined.

Lemma parse_ignores_following_bytes_witness :
  parse samples.datetime 6 samples.DateTimeField_decode BIN48_ABS samples.now
    (samples.minimal ++ [x01; x02])
  = inr samples.minimal_packet.
Proof.
  apply (parse_ignores_following_bytes samples.datetime 6
           samples.DateTimeField_decode Bin48Abs samples.now samples.minimal
           [x01; x02] samples.minimal_packet).
  - vm_compute. lia.
  - exact parse_minimal.
Defined.

Lemma checksum_of_short_buffer_witness :
  _checksum [x01; x02] 3 = inl IndexError.
Proof. apply checksum_of_short_buffer; cbn; lia. Defined.

Lemma parse_detects_one_changed_byte_witness :
  parse samples.datetime 6 samples.DateTimeField_decode BIN48_ABS samples.now
    ([] ++ x01 :: minimal_tail)
  = inl (bad_checksum ([] ++ x01 :: minimal_tail) (size 6 BIN48_ABS)).
Proof.
  apply (parse_detects_one_changed_byte samples.datetime 6
           samples.DateTimeField_decode Bin48Abs samples.now [] minimal_tail
           x00 x01 samples.minimal_packet).
  - vm_compute. lia.
  - discriminate.
  - exact parse_minimal.
Defined.

Lemma parsed_counters_within_maxima_witness :
  exists n m,
    seconds samples.datetime samples.minimal_packet = VInt samples.datetime n
    /\ max_seconds samples.datetime samples.minimal_packet = inr m
    /\ (0 <= n <= m)%Z.
Proof.
  exact (proj1 (parsed_counters_within_maxima samples.datetime 6
                  samples.DateTimeField_decode Bin48Abs samples.now
                  samples.minimal samples.minimal_packet parse_minimal)).
Defined.

Lemma parsed_packet_attributes_witness :
  exists x,
    voltage samples.datetime samples.minimal_packet
    = VFloat samples.datetime x.
Proof.
  exact (proj1 (parsed_packet_attributes samples.datetime 6
                  samples.DateTimeField_decode Bin48Abs samples.now
                  samples.minimal samples.minimal_packet parse_minimal)).
Defined.

End packets_more.

(** ** More about api.py: the outcomes of a transaction *)

Module api_more.
Import api.
Import api_facts.

(** The block [return await f(arg)] of an [async with call_api(...) as f:]
    statement, as [get_serial_number] has it. *)
Definition single_call {T R} (arg : T) : @block T R R :=
  Await arg (fun r =>
               match r with
               | inr result => Return result
               | inl e => Raise e
               end).

(** A protocol object that answers as [samples.answering] does, but whose
    [end_api_request] raises. *)
Definition failing_to_end : BidirectionalProtocol unit :=
  {| begin_api_request := fun s => (inr samples.three_seconds, s);
     send_api_request := fun _ s => (inr samples.three_seconds, s);
     receive_api_response := fun s => (inr "123456", s);
     end_api_request := fun s => (inl (Exception "link lost"), s) |}.

Section Outcomes.

Context {S T R : Type}.
Variable interrupted : list event -> bool.
Variable api : ApiCall T R.
Variable protocol : BidirectionalProtocol S.

Local Abbreviation call_api := (api.call_api interrupted api protocol).

(** A transaction of one call, not cancelled, on a protocol whose
    [begin_api_request] and [end_api_request] return: wherever the call
    fails (in the formatter, in [send_api_request], in
    [receive_api_response] or in the parser), the methods called before
    are not called again, those after are not called, [end_api_request]
    closes the trace, and the transaction returns or raises what the
    parser, or the step that failed, returned or raised. *)
Theorem one_call_transaction (arg : T) s trace delay s0 :
  (forall trace, interrupted trace = false) ->
  begin_api_request protocol s = (inr delay, s0) ->
  (forall s, exists s', end_api_request protocol s = (inr tt, s')) ->
  exists s_end,
    call_api (single_call arg) (s, trace)
    = match _format_request api arg with
      | inl e =>
          (inl e,
           (s_end,
            trace ++ [BeginApiRequest; Sleep (seconds delay); EndApiRequest]))
      | inr request =>
          match send_api_request protocol request s0 with
          | (inl e, _) =>
              (inl e,
               (s_end,
                trace ++ [BeginApiRequest; Sleep (seconds delay);
                          SendApiRequest request; EndApiRequest]))
          | (inr turnaround, s1) =>
              (match receive_api_response protocol s1 with
               | (inl e, _) => inl e
               | (inr response, _) => _parse_response api response
               end,
               (s_end,
                trace ++ [BeginApiRequest; Sleep (seconds delay);
                          SendApiRequest request; Sleep (seconds turnaround);
                          ReceiveApiResponse; EndApiRequest]))
          end
      end.
Proof.
  intros Hloop Hbegin Hend.
  unfold api.call_api, single_call, bind, try_finally, invoke, asyncio_sleep.
  rewrite Hbegin, Hloop. cbn [run_block].
  unfold send, send_request, receive_response, bind, lift, invoke,
    asyncio_sleep.
  destruct (_format_request api arg) as [e|request]; cbn [run_block raise].
  { destruct (Hend s0) as [s' ->]. exists s'.
    now rewrite <- !app_assoc. }
  destruct (send_api_request protocol request s0) as [[e|turnaround] s1];
    cbn [run_block raise].
  { destruct (Hend s1) as [s' ->]. exists s'.
    now rewrite <- !app_assoc. }
  rewrite Hloop.
  destruct (receive_api_response protocol s1) as [[e|response] s2];
    cbn [run_block raise].
  { destruct (Hend s2) as [s' ->]. exists s'.
    now rewrite <- !app_assoc. }
  destruct (Hend s2) as [s' Hs']. exists s'.
  destruct (_parse_response api response) as [e|result];
    cbn [run_block raise ret]; rewrite Hs'; now rewrite <- !app_assoc.
Qed.

(** When [end_api_request] raises, the transaction raises that exception,
    whatever its block did: a value the block returned is lost, and an
    exception it raised is replaced. *)
Theorem end_api_request_failure_replaces_outcome {A} (body : block A)
    s trace delay s0 e :
  begin_api_request protocol s = (inr delay, s0) ->
  (forall s, exists s', end_api_request protocol s = (inl e, s')) ->
  fst (call_api body (s, trace)) = inl e.
Proof.
  intros Hbegin Hend.
  unfold api.call_api, bind, try_finally, invoke.
  rewrite Hbegin.
  destruct (asyncio_sleep interrupted (seconds delay)
              (s0, trace ++ [BeginApiRequest])) as [[e1|u] w1].
  - destruct w1 as [s1 trace1]. destruct (Hend s1) as [s' ->]. reflexivity.
  - destruct (run_block (send interrupted api protocol) body w1)
      as [r [s2 trace2]].
    destruct (Hend s2) as [s' ->]. reflexivity.
Qed.

(** A transaction that is cancelled during the suspension that follows
    [begin_api_request] does not run its block: nothing is sent or
    received, [end_api_request] is called at once, and CancelledError is
    raised unless [end_api_request] raises. *)
Theorem cancelled_before_the_block {A} (body : block A) s trace delay s0 :
  begin_api_request protocol s = (inr delay, s0) ->
  interrupted (trace ++ [BeginApiRequest; Sleep (seconds delay)]) = true ->
  call_api body (s, trace)
  = (match fst (end_api_request protocol s0) with
     | inl e => inl e
     | inr _ => inl CancelledError
     end,
     (snd (end_api_request protocol s0),
      trace ++ [BeginApiRequest; Sleep (seconds delay); EndApiRequest])).
Proof.
  intros Hbegin Hcancel.
  unfold api.call_api, bind, try_finally, invoke, asyncio_sleep.
  rewrite Hbegin, <- app_assoc. cbn [app]. rewrite Hcancel.
  destruct (end_api_request protocol s0) as [[e|u] s1]; cbn [fst snd];
    now rewrite <- !app_assoc.
Qed.

End Outcomes.

(** *** get_serial_number on any response *)

Section SerialNumberOutcome.

Context {S : Type}.
Variable CMD_GET_SERIAL_NUMBER : string.
Variable max_str_digits : nat.
Variable interrupted : list event -> bool.
Variable protocol : BidirectionalProtocol S.

(** [get_serial_number], not cancelled, on a protocol whose four methods
    return: it begins, suspends, sends the command literal, suspends,
    receives and ends, each once and in this order, and returns or
    raises exactly what [int] does on the response text. *)
Theorem get_serial_number_outcome s trace delay s0 turnaround s1 response
    s2 s3 :
  (forall trace, interrupted trace = false) ->
  begin_api_request protocol s = (inr delay, s0) ->
  send_api_request protocol CMD_GET_SERIAL_NUMBER s0 = (inr turnaround, s1) ->
  receive_api_response protocol s1 = (inr response, s2) ->
  end_api_request protocol s2 = (inr tt, s3) ->
  get_serial_number CMD_GET_SERIAL_NUMBER max_str_digits interrupted protocol
    (s, trace)
  = (int max_str_digits response,
     (s3,
      trace ++ [BeginApiRequest; Sleep (seconds delay);
                SendApiRequest CMD_GET_SERIAL_NUMBER;
                Sleep (seconds turnaround); ReceiveApiResponse;
                EndApiRequest])).
Proof.
  intros Hloop Hbegin Hsend Hreceive Hend.
  unfold get_serial_number, call_api, bind, try_finally, invoke,
    asyncio_sleep.
  rewrite Hbegin, Hloop. cbn [run_block].
  unfold send, send_request, receive_response, bind, lift, invoke,
    asyncio_sleep.
  cbn [_format_request _parse_response GET_SERIAL_NUMBER
       GET_SERIAL_NUMBER_formatter GET_SERIAL_NUMBER_parser].
  rewrite Hsend. cbv beta iota zeta. rewrite Hloop.
  rewrite Hreceive. cbv beta iota zeta.
  unfold GET_SERIAL_NUMBER_parser.
  destruct (int max_str_digits response) as [e|n];
    cbn [run_block ret raise]; cbv beta iota zeta; rewrite Hend;
    now rewrite <- !app_assoc.
Qed.

End SerialNumberOutcome.

(** *** The texts that the parser of GET_SERIAL_NUMBER takes *)


(** [c] occurs in [s]. *)
Fixpoint occurs (c : ascii) (s : string) : Prop :=
  match s with
  | EmptyString => False
  | String c' s' => c' = c \/ occurs c s'
  end.






Lemma occurs_lstrip (c : ascii) (s : string) :
  is_space c = false -> occurs c s -> occurs c (lstrip s).
Proof.
  intros Hc. induction s as [|c' s IH]; cbn; [trivial|].
  intros [->|H].
  - rewrite Hc. now left.
  - destruct (is_space c'); [now apply IH | now right].
Qed.

Lemma occurs_rstrip (c : ascii) (s : string) :
  is_space c = false -> occurs c s -> occurs c (rstrip s).
Proof.
  intros Hc. induction s as [|c' s IH]; cbn [occurs rstrip]; [trivial|].
  intros [->|H].
  - destruct (rstrip s); [rewrite Hc|]; now left.
  - specialize (IH H). destruct (rstrip s); [contradiction | now right].
Qed.

Lemma digits_of_foreign (c : ascii) (s : string) :
  digit_of c = None ->
  c <> "_"%char ->
  occurs c s ->
  forall acc count after_digit, digits s acc count after_digit = None.
Proof.
  intros Hdigit Hunderscore.
  induction s as [|c' s IH]; cbn [occurs digits]; [contradiction|].
  intros [->|H] acc count after_digit.
  - rewrite Hdigit.
    destruct (Ascii.eqb_spec c "_"%char); [contradiction | reflexivity].
  - destruct (digit_of c'); [now apply IH|].
    destruct (Ascii.eqb c' "_" && after_digit); [now apply IH | reflexivity].
Qed.

(** [int] rejects a text in which a character occurs that is no digit,
    no whitespace, no sign and no underscore. *)
Lemma int_of_foreign (max_str_digits : nat) (c : ascii) (text : string) :
  digit_of c = None ->
  is_space c = false ->
  c <> "_"%char -> c <> "+"%char -> c <> "-"%char ->
  occurs c text ->
  int max_str_digits text
  = inl (ValueError "invalid literal for int() with base 10").
Proof.
  intros Hdigit Hspace Hunderscore Hplus Hminus Hoccurs. unfold int.
  pose proof (occurs_rstrip c _ Hspace (occurs_lstrip c _ Hspace Hoccurs))
    as Hstripped.
  destruct (rstrip (lstrip text)) as [|c' rest]; [contradiction|].
  assert (Hliteral :
            exists negative literal,
              match String c' rest with
              | String "-" rest => (true, rest)
              | String "+" rest => (false, rest)
              | other => (false, other)
              end = (negative, literal)
              /\ occurs c literal).
  { destruct (Ascii.eqb_spec c' "-"%char) as [->|Hm].
    - exists true, rest. split; [reflexivity|].
      destruct Hstripped as [H|H]; [congruence | exact H].
    - destruct (Ascii.eqb_spec c' "+"%char) as [->|Hp].
      + exists false, rest. split; [reflexivity|].
        destruct Hstripped as [H|H]; [congruence | exact H].
      + exists false, (String c' rest). split; [|exact Hstripped].
        destruct c' as [[] [] [] [] [] [] [] []]; try reflexivity;
          contradiction. }
  destruct Hliteral as [negative [literal [-> Hin]]].
  now rewrite (digits_of_foreign c literal Hdigit Hunderscore Hin).
Qed.

Section ParserTexts.

Variable CMD_GET_SERIAL_NUMBER : string.
Variable max_str_digits : nat.

Local Abbreviation GET_SERIAL_NUMBER :=
  (api.GET_SERIAL_NUMBER CMD_GET_SERIAL_NUMBER max_str_digits).


(** The parser of GET_SERIAL_NUMBER raises ValueError on a response in
    which an ASCII character occurs that is no digit, no whitespace, no
    sign and no underscore. *)
Theorem parser_rejects_foreign_characters (c : ascii) (response : string) :
  (nat_of_ascii c < 128)%nat ->
  digit_of c = None ->
  is_space c = false ->
  c <> "_"%char -> c <> "+"%char -> c <> "-"%char ->
  occurs c response ->
  _parse_response GET_SERIAL_NUMBER response
  = inl (ValueError "invalid literal for int() with base 10").
Proof. intros _. apply int_of_foreign. Qed.

End ParserTexts.

(** *** The statements above on the sample data *)

Lemma one_call_transaction_witness :
  exists s_end,
    call_api samples.undisturbed
      (GET_SERIAL_NUMBER samples.CMD_GET_SERIAL_NUMBER 4300)
      (samples.answering samples.three_seconds "123456") (single_call tt)
      (tt, [])
    = (inr 123456%Z,
       (s_end,
        [BeginApiRequest; Sleep 3;
         SendApiRequest samples.CMD_GET_SERIAL_NUMBER; Sleep 3;
         ReceiveApiResponse; EndApiRequest])).
Proof.
  apply (one_call_transaction samples.undisturbed
           (GET_SERIAL_NUMBER samples.CMD_GET_SERIAL_NUMBER 4300)
           (samples.answering samples.three_seconds "123456") tt tt []
           samples.three_seconds tt).
  - reflexivity.
  - reflexivity.
  - intros s. exists s. reflexivity.
Defined.

Lemma end_api_request_failure_replaces_outcome_witness :
  fst (call_api samples.undisturbed
         (GET_SERIAL_NUMBER samples.CMD_GET_SERIAL_NUMBER 4300) failing_to_end
         (single_call tt) (tt, []))
  = inl (Exception "link lost").
Proof.
  apply (end_api_request_failure_replaces_outcome samples.undisturbed
           (GET_SERIAL_NUMBER samples.CMD_GET_SERIAL_NUMBER 4300)
           failing_to_end (single_call tt) tt [] samples.three_seconds tt).
  - reflexivity.
  - intros s. exists s. reflexivity.
Defined.

Lemma cancelled_before_the_block_witness :
  call_api samples.cancelling
    (GET_SERIAL_NUMBER samples.CMD_GET_SERIAL_NUMBER 4300)
    (samples.answering samples.three_seconds "123456") (single_call tt)
    (tt, [])
  = (inl CancelledError, (tt, [BeginApiRequest; Sleep 3; EndApiRequest])).
Proof.
  apply (cancelled_before_the_block samples.cancelling
           (GET_SERIAL_NUMBER samples.CMD_GET_SERIAL_NUMBER 4300)
           (samples.answering samples.three_seconds "123456") (single_call tt)
           tt [] samples.three_seconds tt);
    reflexivity.
Defined.

Lemma get_serial_number_outcome_witness :
  get_serial_number samples.CMD_GET_SERIAL_NUMBER 4300 samples.undisturbed
    (samples.answering samples.three_seconds "12x456") (tt, [])
  = (inl (ValueError "invalid literal for int() with base 10"),
     (tt,
      [BeginApiRequest; Sleep 3;
       SendApiRequest samples.CMD_GET_SERIAL_NUMBER; Sleep 3;
       ReceiveApiResponse; EndApiRequest])).
Proof.
  apply (get_serial_number_outcome samples.CMD_GET_SERIAL_NUMBER 4300
           samples.undisturbed
           (samples.answering samples.three_seconds "12x456") tt []
           samples.three_seconds tt samples.three_seconds tt "12x456" tt tt);
    reflexivity.
Defined.


Lemma parser_rejects_foreign_characters_witness :
  _parse_response (GET_SERIAL_NUMBER samples.CMD_GET_SERIAL_NUMBER 4300)
    "12x456"
  = inl (ValueError "invalid literal for int() with base 10").
Proof.
  apply (parser_rejects_foreign_characters samples.CMD_GET_SERIAL_NUMBER 4300
           "x"%char "12x456").
  - cbn. lia.
  - reflexivity.
  - reflexivity.
  - discriminate.
  - discriminate.
  - discriminate.
  - cbn. tauto.
Defined.

End api_more.
